(** * Knowdes: the knowledge-graph store of [App.tsx] and the effect
    scheduling of [GraphVisualizer]

    The development follows the TypeScript sources:
    - [types.ts]: [GraphNode], [GraphLink], [KnowledgeGraphData];
    - [App.tsx]: [sanitizeGraphData], the state updater passed to
      [setGraphData] inside [handleExpandSelection], and the handlers
      [handleGenerate], [handleFileChange], [handleExpandSelection],
      [handleNodeClick], each cut at its [await] points;
    - [GraphVisualizer.tsx]: the two [useEffect] blocks and their
      dependency arrays.

    JavaScript [Set<string>] is a [gset string]; arrays are lists. *)

From stdpp Require Import base decidable option list sets gmap strings.
From Stdlib Require Import Ascii.

Open Scope string_scope.
Open Scope list_scope.

(** ** Data model ([types.ts]) *)

Module GraphNode.
(** The D3 bookkeeping fields [x], [y], [fx], [fy] are optional numbers
    that none of the functions below reads or writes; they live in the
    simulation's working copy (see [D3]). *)
Record t : Type := mk {
  id : string;
  label : string;
  group : string;
  description : string
}.
End GraphNode.

(** [source: string | GraphNode]: a link endpoint is either a bare
    identifier or, once D3 has resolved it, the node object itself. *)
Inductive Endpoint : Type :=
  | EId (s : string)
  | ENode (n : GraphNode.t).

Module GraphLink.
Record t : Type := mk {
  source : Endpoint;
  target : Endpoint;
  relation : option string
}.
End GraphLink.

Module KnowledgeGraphData.
Record t : Type := mk {
  nodes : list GraphNode.t;
  links : list GraphLink.t
}.
End KnowledgeGraphData.

Abbreviation Graph := KnowledgeGraphData.t.

(** [typeof e === 'object' ? (e as GraphNode).id : e] *)
Definition endpointId (e : Endpoint) : string :=
  match e with
  | EId s => s
  | ENode n => GraphNode.id n
  end.

Definition sourceId (l : GraphLink.t) : string := endpointId (GraphLink.source l).
Definition targetId (l : GraphLink.t) : string := endpointId (GraphLink.target l).

(** The direction-sensitive identifier pair of a link. *)
Definition linkPair (l : GraphLink.t) : string * string := (sourceId l, targetId l).

(** The template literal [`${s}-${t}`]. *)
Definition linkKey (l : GraphLink.t) : string := sourceId l +:+ "-" +:+ targetId l.

(** [new Set(nodes.map(n => n.id))] *)
Definition idSet (ns : list GraphNode.t) : gset string :=
  list_to_set (GraphNode.id <$> ns).

(** The predicate of both dangling-link filters:
    [ids.has(sourceId) && ids.has(targetId)]. *)
Definition resolves (ids : gset string) (l : GraphLink.t) : Prop :=
  sourceId l ∈ ids ∧ targetId l ∈ ids.

#[global] Instance resolves_dec ids l : Decision (resolves ids l) := and_dec _ _.

(** ** [sanitizeGraphData] (App.tsx, lines 53-61) *)

Definition sanitizeGraphData (nodes : list GraphNode.t) (links : list GraphLink.t) : Graph :=
  let nodeIds := idSet nodes in
  let validLinks := filter (resolves nodeIds) links in
  KnowledgeGraphData.mk nodes validLinks.

(** ** The merge of [handleExpandSelection] (App.tsx, lines 176-216) *)

Definition merge (prevData newData : Graph) : Graph :=
  let newNodesRaw := KnowledgeGraphData.nodes newData in
  let newLinksRaw := KnowledgeGraphData.links newData in
  let existingIds := idSet (KnowledgeGraphData.nodes prevData) in
  let uniqueNewNodes := filter (λ n, GraphNode.id n ∉ existingIds) newNodesRaw in
  let mergedNodes := KnowledgeGraphData.nodes prevData ++ uniqueNewNodes in
  let allNodeIds := idSet mergedNodes in
  let existingLinks : gset string :=
    list_to_set (linkKey <$> KnowledgeGraphData.links prevData) in
  let uniqueNewLinks := filter (λ l, linkKey l ∉ existingLinks) newLinksRaw in
  let mergedLinks := KnowledgeGraphData.links prevData ++ uniqueNewLinks in
  let validLinks := filter (resolves allNodeIds) mergedLinks in
  KnowledgeGraphData.mk mergedNodes validLinks.

(** The updater handed to [setGraphData]: [prevData] is whatever graph is
    current when React applies it; with no graph the fragment is returned
    as it came ([if (!prevData) return newData]). *)
Definition mergeUpdater (newData : Graph) (prevData : option Graph) : Graph :=
  match prevData with
  | None => newData
  | Some prev => merge prev newData
  end.

(** ** Graph invariants of the data model *)

(** 1. all node identifiers are unique *)
Definition uniqueIds (g : Graph) : Prop :=
  NoDup (GraphNode.id <$> KnowledgeGraphData.nodes g).

(** 2. every link's source and target identifier is a node identifier *)
Definition noDangling (g : Graph) : Prop :=
  Forall (resolves (idSet (KnowledgeGraphData.nodes g))) (KnowledgeGraphData.links g).

(** 3. no two links share the ordered (source, target) identifier pair *)
Definition uniqueLinks (g : Graph) : Prop :=
  NoDup (linkPair <$> KnowledgeGraphData.links g).

Definition wellFormed (g : Graph) : Prop :=
  uniqueIds g ∧ noDangling g ∧ uniqueLinks g.

(** ** Application state ([App.tsx], the [useState] cells)

    [apiKeyReady] and [showNotebookModal] are left out: no handler below
    reads or writes them. *)

Record GroundingSource : Type := { title : string; uri : string }.
Record PlanResponse : Type := { markdown : string; sources : list GroundingSource }.

Record AppState : Type := mkApp {
  topic : string;
  status : string;
  graphData : option Graph;
  loadingGraph : bool;
  graphError : string;
  isExpanding : bool;
  isSelectionMode : bool;
  selectedNodeIds : gset string;
  selectedNode : option GraphNode.t;
  plan : option PlanResponse;
  imageUrl : option string;
  loadingDetails : bool;
  showPanel : bool
}.

Definition initialState : AppState :=
  mkApp "" "Beginner" None false "" false false ∅ None None None false false.

(** The state setters. *)
Definition setTopic (v : string) (s : AppState) : AppState :=
  mkApp v (status s) (graphData s) (loadingGraph s) (graphError s) (isExpanding s)
        (isSelectionMode s) (selectedNodeIds s) (selectedNode s) (plan s) (imageUrl s)
        (loadingDetails s) (showPanel s).
Definition setStatus (v : string) (s : AppState) : AppState :=
  mkApp (topic s) v (graphData s) (loadingGraph s) (graphError s) (isExpanding s)
        (isSelectionMode s) (selectedNodeIds s) (selectedNode s) (plan s) (imageUrl s)
        (loadingDetails s) (showPanel s).
Definition setGraphData (v : option Graph) (s : AppState) : AppState :=
  mkApp (topic s) (status s) v (loadingGraph s) (graphError s) (isExpanding s)
        (isSelectionMode s) (selectedNodeIds s) (selectedNode s) (plan s) (imageUrl s)
        (loadingDetails s) (showPanel s).
Definition setLoadingGraph (v : bool) (s : AppState) : AppState :=
  mkApp (topic s) (status s) (graphData s) v (graphError s) (isExpanding s)
        (isSelectionMode s) (selectedNodeIds s) (selectedNode s) (plan s) (imageUrl s)
        (loadingDetails s) (showPanel s).
Definition setGraphError (v : string) (s : AppState) : AppState :=
  mkApp (topic s) (status s) (graphData s) (loadingGraph s) v (isExpanding s)
        (isSelectionMode s) (selectedNodeIds s) (selectedNode s) (plan s) (imageUrl s)
        (loadingDetails s) (showPanel s).
Definition setIsExpanding (v : bool) (s : AppState) : AppState :=
  mkApp (topic s) (status s) (graphData s) (loadingGraph s) (graphError s) v
        (isSelectionMode s) (selectedNodeIds s) (selectedNode s) (plan s) (imageUrl s)
        (loadingDetails s) (showPanel s).
Definition setIsSelectionMode (v : bool) (s : AppState) : AppState :=
  mkApp (topic s) (status s) (graphData s) (loadingGraph s) (graphError s) (isExpanding s)
        v (selectedNodeIds s) (selectedNode s) (plan s) (imageUrl s)
        (loadingDetails s) (showPanel s).
Definition setSelectedNodeIds (v : gset string) (s : AppState) : AppState :=
  mkApp (topic s) (status s) (graphData s) (loadingGraph s) (graphError s) (isExpanding s)
        (isSelectionMode s) v (selectedNode s) (plan s) (imageUrl s)
        (loadingDetails s) (showPanel s).
Definition setSelectedNode (v : option GraphNode.t) (s : AppState) : AppState :=
  mkApp (topic s) (status s) (graphData s) (loadingGraph s) (graphError s) (isExpanding s)
        (isSelectionMode s) (selectedNodeIds s) v (plan s) (imageUrl s)
        (loadingDetails s) (showPanel s).
Definition setPlan (v : option PlanResponse) (s : AppState) : AppState :=
  mkApp (topic s) (status s) (graphData s) (loadingGraph s) (graphError s) (isExpanding s)
        (isSelectionMode s) (selectedNodeIds s) (selectedNode s) v (imageUrl s)
        (loadingDetails s) (showPanel s).
Definition setImageUrl (v : option string) (s : AppState) : AppState :=
  mkApp (topic s) (status s) (graphData s) (loadingGraph s) (graphError s) (isExpanding s)
        (isSelectionMode s) (selectedNodeIds s) (selectedNode s) (plan s) v
        (loadingDetails s) (showPanel s).
Definition setLoadingDetails (v : bool) (s : AppState) : AppState :=
  mkApp (topic s) (status s) (graphData s) (loadingGraph s) (graphError s) (isExpanding s)
        (isSelectionMode s) (selectedNodeIds s) (selectedNode s) (plan s) (imageUrl s)
        v (showPanel s).
Definition setShowPanel (v : bool) (s : AppState) : AppState :=
  mkApp (topic s) (status s) (graphData s) (loadingGraph s) (graphError s) (isExpanding s)
        (isSelectionMode s) (selectedNodeIds s) (selectedNode s) (plan s) (imageUrl s)
        (loadingDetails s) v.

(** ** Handlers as a writer over the state

    What a handler does besides updating the state: the calls it places on
    the external collaborators of [geminiService] and what it prints with
    [console.error]. *)
Inductive Effect : Type :=
  | CallGenerateKnowledgeGraph (topic status : string)
  | CallExpandGraph (selectedNodes : list (string * string)) (topic : string)
  | CallGenerateActionPlan (nodeLabel userStatus contextTopic : string)
  | CallGenerateConceptImage (prompt aspectRatio : string)
  | ConsoleError (message : string).

Definition Handler : Type := AppState → AppState * list Effect.

Definition ret : Handler := λ s, (s, []).
Definition upd (f : AppState → AppState) : Handler := λ s, (f s, []).
Definition emit (e : Effect) : Handler := λ s, (s, [e]).
Definition seq (h1 h2 : Handler) : Handler :=
  λ s, let '(s1, o1) := h1 s in let '(s2, o2) := h2 s1 in (s2, o1 ++ o2).

Declare Scope handler_scope.
Delimit Scope handler_scope with H.
Notation "h1 ;; h2" := (seq h1 h2)
  (at level 100, h2 at level 200, right associativity) : handler_scope.

(** How an awaited promise settles; a rejection carries [err.message]. *)
Inductive Settled (A : Type) : Type :=
  | Fulfilled (value : A)
  | Rejected (message : string).
Arguments Fulfilled {A} value.
Arguments Rejected {A} message.

(** [a || b] on strings: the empty string is falsy. *)
Definition orElse (a b : string) : string := if decide (a = "") then b else a.

(** *** [handleGenerate] (lines 63-89), up to the awaits of its [try]

    The API-key check that opens the [try] block is folded into the call:
    the block settles as a whole, with the graph data or with the error
    that the [catch] receives. *)
Definition handleGenerate : Handler :=
  λ s,
    if decide (topic s = "") then ret s
    else
      (upd (setLoadingGraph true) ;;
       upd (setGraphError "") ;;
       upd (setGraphData None) ;;
       upd (setSelectedNode None) ;;
       upd (setPlan None) ;;
       upd (setImageUrl None) ;;
       upd (setShowPanel false) ;;
       upd (setSelectedNodeIds ∅) ;;
       emit (CallGenerateKnowledgeGraph (topic s) (status s)))%H s.

(** ... and its continuation once the [try] block's awaits have settled:
    the success path, or [catch], followed by [finally]. *)
Definition handleGenerate_settled (r : Settled Graph) : Handler :=
  match r with
  | Fulfilled data =>
      let sanitized :=
        sanitizeGraphData (KnowledgeGraphData.nodes data) (KnowledgeGraphData.links data) in
      (upd (setGraphData (Some sanitized)) ;; upd (setLoadingGraph false))%H
  | Rejected message =>
      (upd (setGraphError (orElse message "Failed to generate graph")) ;;
       upd (setLoadingGraph false))%H
  end.

(** *** [handleFileChange] (lines 116-159): the [reader.onload] callback

    What [JSON.parse] and the two shape tests can find in the file. A
    missing [topic] or [status] is [None]. *)
Inductive Parsed : Type :=
  | ParsedExport (nodes : list GraphNode.t) (links : list GraphLink.t)
                 (topic status : option string)
  | ParsedRaw (nodes : list GraphNode.t) (links : list GraphLink.t)
  | ParsedInvalid (error : string).

(** [if (v) set(v)] for an optional string. *)
Definition setIfTruthy (set : string → AppState → AppState) (v : option string) : Handler :=
  match v with
  | Some x => if decide (x = "") then ret else upd (set x)
  | None => ret
  end.

Definition handleFileChange (parsed : Parsed) : Handler :=
  match parsed with
  | ParsedExport nodes links t st =>
      (upd (setGraphData (Some (sanitizeGraphData nodes links))) ;;
       setIfTruthy setTopic t ;;
       setIfTruthy setStatus st ;;
       upd (setSelectedNode None) ;;
       upd (setPlan None) ;;
       upd (setImageUrl None) ;;
       upd (setShowPanel false) ;;
       upd (setSelectedNodeIds ∅) ;;
       upd (setGraphError ""))%H
  | ParsedRaw nodes links =>
      (upd (setGraphData (Some (sanitizeGraphData nodes links))) ;;
       upd (setGraphError ""))%H
  | ParsedInvalid error =>
      (emit (ConsoleError error) ;;
       upd (setGraphError "Failed to import graph: Invalid JSON format."))%H
  end.

(** *** [handleExpandSelection] (lines 161-224), up to [await expandGraph] *)
Definition handleExpandSelection : Handler :=
  λ s,
    match graphData s with
    | None => ret s
    | Some g =>
        if decide (size (selectedNodeIds s) = 0) then ret s
        else
          let selectedNodes :=
            (λ n, (GraphNode.id n, GraphNode.label n)) <$>
              filter (λ n, GraphNode.id n ∈ selectedNodeIds s) (KnowledgeGraphData.nodes g) in
          (upd (setIsExpanding true) ;;
           upd (setGraphError "") ;;
           emit (CallExpandGraph selectedNodes (topic s)))%H s
    end.

(** ... and its continuation when the call has settled. The functional
    update reads the graph that is current at that moment. *)
Definition handleExpandSelection_settled (r : Settled Graph) : Handler :=
  match r with
  | Fulfilled newData =>
      (upd (λ s, setGraphData (Some (mergeUpdater newData (graphData s))) s) ;;
       upd (setIsExpanding false))%H
  | Rejected message =>
      (emit (ConsoleError message) ;; upd (setIsExpanding false))%H
  end.

(** *** [handleNodeClick] (lines 226-266), up to [Promise.allSettled] *)
Definition handleNodeClick (n : GraphNode.t) : Handler :=
  λ s,
    if isSelectionMode s then
      let newSet :=
        if decide (GraphNode.id n ∈ selectedNodeIds s)
        then selectedNodeIds s ∖ {[GraphNode.id n]}
        else selectedNodeIds s ∪ {[GraphNode.id n]} in
      upd (setSelectedNodeIds newSet) s
    else
      (upd (setSelectedNode (Some n)) ;;
       upd (setShowPanel true) ;;
       upd (setLoadingDetails true) ;;
       upd (setPlan None) ;;
       upd (setImageUrl None) ;;
       emit (CallGenerateActionPlan (GraphNode.label n) (status s) (topic s)) ;;
       emit (CallGenerateConceptImage
               ("A clear, educational, digital art illustration representing the concept: "
                +:+ GraphNode.label n +:+ " in the context of " +:+ topic s +:+ ".")
               "1:1"))%H s.

(** [getSelectedNodesList] (lines 268-271) *)
Definition getSelectedNodesList (s : AppState) : list GraphNode.t :=
  match graphData s with
  | None => []
  | Some g => filter (λ n, GraphNode.id n ∈ selectedNodeIds s) (KnowledgeGraphData.nodes g)
  end.

(** *** What the main area shows (lines 405-433) *)
Inductive MainView : Type :=
  | Spinner
  | ErrorBox (message : string)
  | GraphView (data : Graph) (selected : gset string)
  | Placeholder.

Definition mainView (s : AppState) : MainView :=
  if loadingGraph s then Spinner
  else if decide (graphError s = "") then
    match graphData s with
    | Some g => GraphView g (selectedNodeIds s)
    | None => Placeholder
    end
  else ErrorBox (graphError s).

(** *** Runs of the application *)
Inductive Event : Type :=
  | Generate
  | GenerateSettled (r : Settled Graph)
  | FileLoaded (parsed : Parsed)
  | ExpandSelection
  | ExpandSettled (r : Settled Graph)
  | NodeClick (n : GraphNode.t)
  | TopicTyped (t : string)
  | SelectionModeToggled
  | SelectionCleared.

Definition handle (e : Event) : Handler :=
  match e with
  | Generate => handleGenerate
  | GenerateSettled r => handleGenerate_settled r
  | FileLoaded parsed => handleFileChange parsed
  | ExpandSelection => handleExpandSelection
  | ExpandSettled r => handleExpandSelection_settled r
  | NodeClick n => handleNodeClick n
  | TopicTyped t => upd (setTopic t)
  | SelectionModeToggled => upd (λ s, setIsSelectionMode (negb (isSelectionMode s)) s)
  | SelectionCleared => upd (setSelectedNodeIds ∅)
  end.

Fixpoint run (es : list Event) : Handler :=
  match es with
  | [] => ret
  | e :: es' => (handle e ;; run es')%H
  end.

(** ** [GraphVisualizer]: the effects and their dependency arrays

    The D3 force simulation is an external library: the component only
    creates a simulation, lets it tick and stops it. Node coordinates are
    floating-point numbers owned by the simulation; the component reads them
    back as the [transform] string of each node group. *)
Class D3 : Type := {
  Simulation : Type;
  (** [d3.forceSimulation(nodes).force("link", ...) ... .force("collide", ...)]
      for a viewport of the given width and height *)
  forceSimulation : list GraphNode.t → list GraphLink.t → nat → nat → Simulation;
  (** one iteration of the simulation *)
  tick : Simulation → Simulation;
  (** [`translate(${d.x},${d.y})`] for the working copy of a node *)
  translate : Simulation → GraphNode.t → string
}.

(** React compares dependencies with [Object.is]: an object is the same
    dependency only if it is the same allocation. *)
Record Obj (A : Type) : Type := { identity : nat; value : A }.
Arguments identity {A} o.
Arguments value {A} o.

Definition sameObj {A} (a b : Obj A) : bool := bool_decide (identity a = identity b).

Definition sameOptObj {A} (a b : option (Obj A)) : bool :=
  match a, b with
  | None, None => true
  | Some x, Some y => sameObj x y
  | _, _ => false
  end.

Record Dimensions : Type := { width : nat; height : nat }.

(** What one render of the component sees: its props and its
    [dimensions] state. *)
Record Render : Type := {
  data : option (Obj Graph);
  onNodeClick : nat;
  selected : Obj (gset string);
  dimensions : Obj Dimensions
}.

(** A node group of the SVG with its circle. *)
Record NodeElem : Type := mkElem {
  datum : GraphNode.t;
  transform : option string;
  r : string;
  stroke : string;
  strokeWidth : string;
  strokeOpacity : option string
}.

(** Calls on the running simulation and on the SVG, in order. *)
Inductive VizOp : Type :=
  | SimulationStopped
  | SvgCleared
  | SimulationCreated
  | CirclesRestyled.

Record VizState `{D3} : Type := mkViz {
  onNodeClickRef : nat;
  svg : list NodeElem;
  (** the simulation held by the pending cleanup of the structure effect *)
  simulation : option Simulation;
  ops : list VizOp
}.
Arguments mkViz {_} _ _ _ _.

Section Effects.
Context `{D3}.

(** [useEffect(() => { onNodeClickRef.current = onNodeClick }, [onNodeClick])] *)
Definition handlerEffect (cur : Render) (st : VizState) : VizState :=
  mkViz (onNodeClick cur) (svg st) (simulation st) (ops st).

(** The cleanup returned by the structure effect: [simulation.stop()]. *)
Definition structureCleanup (st : VizState) : VizState :=
  match simulation st with
  | Some _ => mkViz (onNodeClickRef st) (svg st) None (ops st ++ [SimulationStopped])
  | None => st
  end.

Definition drawNode (n : GraphNode.t) : NodeElem :=
  mkElem n None "20" "#374151" "1.5" None.

(** "Render Graph Structure" (lines 40-166), dependencies [[data, dimensions]] *)
Definition structureEffect (cur : Render) (st : VizState) : VizState :=
  match data cur with
  | None => st
  | Some d =>
      match KnowledgeGraphData.nodes (value d) with
      | [] => st
      | nodes =>
          let links := KnowledgeGraphData.links (value d) in
          let sim := forceSimulation nodes links
                       (width (value (dimensions cur))) (height (value (dimensions cur))) in
          mkViz (onNodeClickRef st) (drawNode <$> nodes) (Some sim)
                (ops st ++ [SvgCleared; SimulationCreated])
      end
  end.

Definition restyle (sel : gset string) (e : NodeElem) : NodeElem :=
  let on := bool_decide (GraphNode.id (datum e) ∈ sel) in
  mkElem (datum e) (transform e)
         (if on then "24" else "20")
         (if on then "#34d399" else "#374151")
         (if on then "4" else "1.5")
         (Some (if on then "1" else "0.8")).

(** "Selection Highlighting" (lines 169-181), dependencies
    [[selectedNodeIds, data]]; the attributes are those at the end of the
    200 ms transition. *)
Definition highlightEffect (cur : Render) (st : VizState) : VizState :=
  mkViz (onNodeClickRef st) (restyle (value (selected cur)) <$> svg st) (simulation st)
        (ops st ++ [CirclesRestyled]).

(** The [simulation.on("tick", ...)] listener. *)
Definition onTick (st : VizState) : VizState :=
  match simulation st with
  | Some sim =>
      let sim' := tick sim in
      mkViz (onNodeClickRef st)
            ((λ e, mkElem (datum e) (Some (translate sim' (datum e)))
                          (r e) (stroke e) (strokeWidth e) (strokeOpacity e)) <$> svg st)
            (Some sim') (ops st)
  | None => st
  end.

(** Which effects React re-runs after a render: all of them on mount, and
    afterwards those with a dependency that is not the same object. *)
Definition handlerDepsChanged (prev : option Render) (cur : Render) : bool :=
  match prev with
  | None => true
  | Some p => negb (bool_decide (onNodeClick p = onNodeClick cur))
  end.

Definition structureDepsChanged (prev : option Render) (cur : Render) : bool :=
  match prev with
  | None => true
  | Some p => negb (sameOptObj (data p) (data cur) && sameObj (dimensions p) (dimensions cur))
  end.

Definition highlightDepsChanged (prev : option Render) (cur : Render) : bool :=
  match prev with
  | None => true
  | Some p => negb (sameObj (selected p) (selected cur) && sameOptObj (data p) (data cur))
  end.

Definition when (b : bool) (f : VizState → VizState) (st : VizState) : VizState :=
  if b then f st else st.

(** One commit: cleanups of the effects to re-run, then the effects in
    their order of declaration. *)
Definition commit (prev : option Render) (cur : Render) (st : VizState) : VizState :=
  let st1 := when (structureDepsChanged prev cur) structureCleanup st in
  let st2 := when (handlerDepsChanged prev cur) (handlerEffect cur) st1 in
  let st3 := when (structureDepsChanged prev cur) (structureEffect cur) st2 in
  when (highlightDepsChanged prev cur) (highlightEffect cur) st3.

Definition unmounted : VizState := mkViz 0 [] None [].

End Effects.

(** Small builders for concrete graphs. *)
Definition node (i lbl : string) : GraphNode.t := GraphNode.mk i lbl "g" "".
Definition link (s t : string) : GraphLink.t := GraphLink.mk (EId s) (EId t) None.

Definition gAB : Graph :=
  KnowledgeGraphData.mk [node "A" "a"; node "B" "b"] [link "A" "B"].
Definition fBC : Graph :=
  KnowledgeGraphData.mk [node "B" "other"; node "C" "c"] [link "A" "B"; link "B" "C"].
Definition fXY : Graph := KnowledgeGraphData.mk [] [link "X" "Y"].

(** Identifiers that contain the separator of [linkKey]. *)
Definition gHyphen : Graph :=
  KnowledgeGraphData.mk [node "a-b" "1"; node "c" "2"; node "a" "3"; node "b-c" "4"]
                        [link "a-b" "c"].
Definition fHyphen : Graph := KnowledgeGraphData.mk [] [link "a" "b-c"].

(** The state of a session that shows [g] with [sel] armed. *)
Definition showing (g : Graph) (sel : gset string) : AppState :=
  mkApp "rocq" "Beginner" (Some g) false "" false true sel None None None false false.

(** The graph cell holds nothing or a graph without dangling links. *)
Definition graphResolved (s : AppState) : Prop :=
  match graphData s with
  | None => True
  | Some g => noDangling g
  end.

(** A fragment that links back to node ["A"] of [gAB]. *)
Definition fC : Graph := KnowledgeGraphData.mk [node "C" "c"] [link "A" "C"].
Definition gX : Graph := KnowledgeGraphData.mk [node "X" "x"] [].
Definition emptyFragment : Graph := KnowledgeGraphData.mk [] [].

(** A stand-in for D3 whose simulation state counts its ticks. *)
Definition tickCounter : D3 := {|
  Simulation := nat;
  forceSimulation := λ _ _ _ _, 0;
  tick := S;
  translate := λ _ _, "translate(0,0)"
|}.

Definition firstRender : Render := {|
  data := Some {| identity := 1; value := gAB |};
  onNodeClick := 10;
  selected := {| identity := 2; value := ∅ |};
  dimensions := {| identity := 3; value := {| width := 800; height := 600 |} |}
|}.

(** The render after a click in selection mode: a new selection set and a
    new click handler, the same graph and dimensions objects. *)
Definition renderAfterToggle : Render := {|
  data := data firstRender;
  onNodeClick := 11;
  selected := {| identity := 4; value := {["A"]} |};
  dimensions := dimensions firstRender
|}.

(** An identifier without the separator of [linkKey]. *)
Definition hyphenFree (s : string) : Prop :=
  "-"%char ∉ String.list_ascii_of_string s.

(** The continuation of [handleNodeClick] (lines 253-265) when
    [Promise.allSettled] has both results; it only runs after a click
    outside selection mode. *)
Definition handleNodeClick_settled
    (planResult : Settled PlanResponse) (imageResult : Settled string) : Handler :=
  (match planResult with
   | Fulfilled p => upd (setPlan (Some p))
   | Rejected _ => ret
   end ;;
   match imageResult with
   | Fulfilled u => upd (setImageUrl (Some u))
   | Rejected _ => ret
   end ;;
   upd (setLoadingDetails false))%H.

(** The [resize] listener of [GraphVisualizer] (lines 26-33):
    [setDimensions] is given a newly allocated object, here the one with
    identity [fresh], holding the container's size. *)
Definition handleResize (fresh offsetWidth offsetHeight : nat) (cur : Render) : Render :=
  {| data := data cur;
     onNodeClick := onNodeClick cur;
     selected := selected cur;
     dimensions := {| identity := fresh;
                      value := {| width := offsetWidth; height := offsetHeight |} |} |}.

(** ** File names and the export file

    In the string functions below a character stands for one UTF-16 code
    unit; the strings modelled are those whose code units are below 256. *)

Definition between (lo hi n : nat) : bool := (lo <=? n)%nat && (n <=? hi)%nat.

(** What the class [[a-z0-9]] matches under the [i] flag: without the [u]
    flag case folding never maps a code unit above 127 to an ASCII one. *)
Definition isAsciiAlnum (c : ascii) : bool :=
  let n := nat_of_ascii c in
  between 48 57 n || between 65 90 n || between 97 122 n.

(** [s.replace(/[^a-z0-9]/gi, '-')] *)
Fixpoint replaceNonAlnum (s : string) : string :=
  match s with
  | EmptyString => EmptyString
  | String c s' => String (if isAsciiAlnum c then c else "-"%char) (replaceNonAlnum s')
  end.

(** [toLowerCase] on a code unit below 256: the letters A-Z, and the
    Latin-1 capitals U+00C0-U+00DE except the multiplication sign. *)
Definition lowerChar (c : ascii) : ascii :=
  let n := nat_of_ascii c in
  if between 65 90 n || (between 192 222 n && negb (n =? 215)%nat)
  then ascii_of_nat (n + 32) else c.

Fixpoint toLowerCase (s : string) : string :=
  match s with
  | EmptyString => EmptyString
  | String c s' => String (lowerChar c) (toLowerCase s')
  end.

(** [topic.replace(/[^a-z0-9]/gi, '-').toLowerCase()] *)
Definition slugify (topic : string) : string := toLowerCase (replaceNonAlnum topic).

(** The [link.download] of [handleExport] (App.tsx, line 105) and of
    [handleDownload] (NotebookLMModal.tsx, line 79). *)
Definition exportFileName (topic : string) : string :=
  orElse (slugify topic) "knowledge-graph" +:+ ".json".
Definition notebookFileName (topic : string) : string :=
  slugify topic +:+ "-notebook-source.txt".

Module ExportData.
Record t : Type := mk {
  version : nat;
  topic : string;
  status : string;
  graphData : Graph
}.
End ExportData.

(** [handleExport] (App.tsx, lines 91-110): nothing without a graph,
    otherwise the name of the downloaded file and the object that
    [JSON.stringify] writes into it. *)
Definition handleExport (s : AppState) : option (string * ExportData.t) :=
  match graphData s with
  | None => None
  | Some g => Some (exportFileName (topic s), ExportData.mk 1 (topic s) (status s) g)
  end.

(** What [JSON.parse] finds in a file written by [handleExport]: an
    object with a [graphData] that has both arrays, a [topic] and a
    [status]. *)
Definition parseExport (e : ExportData.t) : Parsed :=
  ParsedExport (KnowledgeGraphData.nodes (ExportData.graphData e))
               (KnowledgeGraphData.links (ExportData.graphData e))
               (Some (ExportData.topic e)) (Some (ExportData.status e)).

(** The characters of a slug: lower-case letters, digits and ["-"]. *)
Definition isSlugChar (c : ascii) : bool :=
  let n := nat_of_ascii c in
  between 48 57 n || between 97 122 n || (n =? 45)%nat.

(** ** [cleanJson] ([geminiService.ts], lines 25-41 of the file) *)

(** [s.replace(/pat/g, '')] for a literal, non-empty pattern: the matches
    are found from left to right and do not overlap. [skip] counts the
    characters of the current match still to be dropped. *)
Fixpoint removeAll_go (pat : string) (skip : nat) (s : string) : string :=
  match s with
  | EmptyString => EmptyString
  | String c s' =>
      match skip with
      | S k => removeAll_go pat k s'
      | O =>
          if String.prefix pat s
          then removeAll_go pat (String.length pat - 1) s'
          else String c (removeAll_go pat 0 s')
      end
  end.

Definition removeAll (pat s : string) : string := removeAll_go pat 0 s.

(** [s.indexOf(c)] and [s.lastIndexOf(c)] for a single character; [None]
    is the [-1] of JavaScript. *)
Fixpoint indexOf (c : ascii) (s : string) : option nat :=
  match s with
  | EmptyString => None
  | String a s' => if decide (a = c) then Some 0 else S <$> indexOf c s'
  end.

Fixpoint lastIndexOf (c : ascii) (s : string) : option nat :=
  match s with
  | EmptyString => None
  | String a s' =>
      match lastIndexOf c s' with
      | Some i => Some (S i)
      | None => if decide (a = c) then Some 0 else None
      end
  end.

(** [s.substring(a, b)]: the arguments are swapped when [a > b] and the
    slice stops at the end of the string. *)
Definition jsSubstring (a b : nat) (s : string) : string :=
  String.substring (a `min` b) ((a `max` b) - (a `min` b)) s.

(** White space of [trim] among the code units below 256: tab, line feed,
    vertical tab, form feed, carriage return, space and no-break space. *)
Definition isJsSpace (c : ascii) : bool :=
  let n := nat_of_ascii c in
  between 9 13 n || (n =? 32)%nat || (n =? 160)%nat.

Fixpoint trimStart (s : string) : string :=
  match s with
  | EmptyString => EmptyString
  | String c s' => if isJsSpace c then trimStart s' else s
  end.

Fixpoint trimEnd (s : string) : string :=
  match s with
  | EmptyString => EmptyString
  | String c s' =>
      match trimEnd s' with
      | EmptyString => if isJsSpace c then EmptyString else String c EmptyString
      | rest => String c rest
      end
  end.

Definition trim (s : string) : string := trimEnd (trimStart s).

Definition cleanJson (text : string) : string :=
  let clean := removeAll "```" (removeAll "```json" text) in
  let clean :=
    match indexOf "{" clean, lastIndexOf "}" clean with
    | Some firstOpen, Some lastClose => jsSubstring firstOpen (lastClose + 1) clean
    | _, _ => clean
    end in
  trim clean.

(** Strings without braces, and strings without backticks. *)
Definition braceFree (s : string) : Prop :=
  ("{"%char ∉ String.list_ascii_of_string s) ∧ ("}"%char ∉ String.list_ascii_of_string s).
Definition tickFree (s : string) : Prop :=
  "`"%char ∉ String.list_ascii_of_string s.

Example sanitize_ex :
  sanitizeGraphData [node "A" "a"; node "B" "b"] [link "A" "B"; link "A" "Z"]
  = KnowledgeGraphData.mk [node "A" "a"; node "B" "b"] [link "A" "B"].
Proof. vm_compute. reflexivity. Qed.

Example merge_scenario :
  merge (KnowledgeGraphData.mk [node "A" "a"; node "B" "b"] [link "A" "B"])
        (KnowledgeGraphData.mk [node "B" "other"; node "C" "c"] [link "A" "B"; link "B" "C"])
  = KnowledgeGraphData.mk [node "A" "a"; node "B" "b"; node "C" "c"]
                          [link "A" "B"; link "B" "C"].
Proof. vm_compute. reflexivity. Qed.

(** * Properties of the graph store *)

Section StoreFacts.
Implicit Types (G F : Graph) (l : GraphLink.t) (n : GraphNode.t) (i : string).

Lemma elem_of_idSet i (ns : list GraphNode.t) :
  i ∈ idSet ns ↔ ∃ n, GraphNode.id n = i ∧ n ∈ ns.
Proof.
  unfold idSet. rewrite elem_of_list_to_set, list_elem_of_fmap.
  split; intros (n & ? & ?); exists n; auto.
Qed.

Lemma idSet_app (ns ms : list GraphNode.t) : idSet (ns ++ ms) = idSet ns ∪ idSet ms.
Proof. unfold idSet. rewrite fmap_app. apply list_to_set_app_L. Qed.

Lemma merge_nodes G F :
  KnowledgeGraphData.nodes (merge G F)
  = KnowledgeGraphData.nodes G
    ++ filter (λ n, GraphNode.id n ∉ idSet (KnowledgeGraphData.nodes G))
              (KnowledgeGraphData.nodes F).
Proof. reflexivity. Qed.

Lemma merge_links G F :
  KnowledgeGraphData.links (merge G F)
  = filter (resolves (idSet (KnowledgeGraphData.nodes (merge G F))))
      (KnowledgeGraphData.links G
       ++ filter (λ l, linkKey l ∉
                        (list_to_set (linkKey <$> KnowledgeGraphData.links G) : gset string))
                 (KnowledgeGraphData.links F)).
Proof. reflexivity. Qed.

(** The merged identifier set is the union of both identifier sets. *)
Lemma idSet_merge G F :
  idSet (KnowledgeGraphData.nodes (merge G F))
  = idSet (KnowledgeGraphData.nodes G) ∪ idSet (KnowledgeGraphData.nodes F).
Proof.
  rewrite merge_nodes, idSet_app. apply set_eq. intros i.
  rewrite !elem_of_union, !elem_of_idSet. split.
  - intros [?|(n & <- & [? ?]%list_elem_of_filter)]; eauto.
  - intros [?|(n & <- & Hn)]; [by left|].
    destruct (decide (GraphNode.id n ∈ idSet (KnowledgeGraphData.nodes G))) as [Hin|Hout].
    + left. by apply elem_of_idSet.
    + right. exists n. split; [done|]. by apply list_elem_of_filter.
Qed.

Lemma resolves_mono (ids ids' : gset string) l : ids ⊆ ids' → resolves ids l → resolves ids' l.
Proof. unfold resolves. intros Hsub [? ?]. split; by apply Hsub. Qed.

Lemma filter_resolves_noDangling (ns : list GraphNode.t) (ls : list GraphLink.t) :
  Forall (resolves (idSet ns)) (filter (resolves (idSet ns)) ls).
Proof. apply Forall_forall. by intros l [? _]%list_elem_of_filter. Qed.

Lemma sanitize_noDangling ns ls : noDangling (sanitizeGraphData ns ls).
Proof. apply filter_resolves_noDangling. Qed.

Lemma merge_noDangling G F : noDangling (merge G F).
Proof. unfold noDangling. rewrite merge_links. apply filter_resolves_noDangling. Qed.

(** Filtering a list keeps its images under [f] duplicate-free. *)
Lemma NoDup_fmap_filter {A B} (f : A → B) (P : A → Prop) `{∀ x, Decision (P x)}
    (xs : list A) :
  NoDup (f <$> xs) → NoDup (f <$> filter P xs).
Proof.
  induction xs as [|x xs IH]; [done|].
  rewrite fmap_cons, NoDup_cons. intros [Hx Hxs].
  rewrite filter_cons. destruct (decide (P x)); [|by auto].
  rewrite fmap_cons, NoDup_cons. split; [|by auto].
  intros (y & Hy & [_ ?]%list_elem_of_filter)%list_elem_of_fmap.
  apply Hx, list_elem_of_fmap. eauto.
Qed.

Lemma linkPair_linkKey l l' : linkPair l = linkPair l' → linkKey l = linkKey l'.
Proof. unfold linkPair, linkKey. by intros [= -> ->]. Qed.

Lemma sanitize_uniqueIds ns ls :
  NoDup (GraphNode.id <$> ns) → uniqueIds (sanitizeGraphData ns ls).
Proof. done. Qed.

Lemma sanitize_uniqueLinks ns ls :
  NoDup (linkPair <$> ls) → uniqueLinks (sanitizeGraphData ns ls).
Proof. apply NoDup_fmap_filter. Qed.

Lemma merge_uniqueIds G F : uniqueIds G → uniqueIds F → uniqueIds (merge G F).
Proof.
  unfold uniqueIds. intros HG HF. rewrite merge_nodes, fmap_app.
  apply NoDup_app. split_and!; [done| |by apply NoDup_fmap_filter].
  intros i Hi (n & -> & [Hn _]%list_elem_of_filter)%list_elem_of_fmap.
  apply Hn. unfold idSet. by apply elem_of_list_to_set.
Qed.

Lemma merge_uniqueLinks G F : uniqueLinks G → uniqueLinks F → uniqueLinks (merge G F).
Proof.
  unfold uniqueLinks. intros HG HF. rewrite merge_links.
  apply NoDup_fmap_filter. rewrite fmap_app.
  apply NoDup_app. split_and!; [done| |by apply NoDup_fmap_filter].
  intros p (g & -> & Hg)%list_elem_of_fmap (l & Hp & [Hl _]%list_elem_of_filter)%list_elem_of_fmap.
  apply Hl, elem_of_list_to_set, list_elem_of_fmap.
  exists g. split; [|done]. symmetry. by apply linkPair_linkKey.
Qed.

(** With no dangling link in [G], every link of [G] survives a merge. *)
Lemma merge_keeps_links G F l :
  noDangling G → l ∈ KnowledgeGraphData.links G → l ∈ KnowledgeGraphData.links (merge G F).
Proof.
  intros HG Hl. rewrite merge_links. apply list_elem_of_filter. split.
  - eapply resolves_mono; [|by eapply Forall_forall in HG].
    rewrite idSet_merge. apply union_subseteq_l.
  - apply elem_of_app. by left.
Qed.

End StoreFacts.

Section FilterFacts.
Context {A : Type} (P : A → Prop) `{∀ x, Decision (P x)}.

Lemma filter_all (xs : list A) : Forall P xs → filter P xs = xs.
Proof.
  induction 1 as [|x xs Hx _ IH]; [done|].
  by rewrite filter_cons_True, IH.
Qed.

Lemma filter_none (xs : list A) : Forall (λ x, ¬ P x) xs → filter P xs = [].
Proof.
  induction 1 as [|x xs Hx _ IH]; [done|].
  by rewrite filter_cons_False.
Qed.

End FilterFacts.

Section Idempotence.
Implicit Types (G F : Graph).

(** A second merge of the same fragment finds all its nodes present. *)
Lemma remerge_nodes G F :
  KnowledgeGraphData.nodes (merge (merge G F) F) = KnowledgeGraphData.nodes (merge G F).
Proof.
  rewrite (merge_nodes (merge G F) F).
  rewrite filter_none; [by rewrite app_nil_r|].
  apply Forall_forall. intros n Hn Hout. apply Hout.
  rewrite idSet_merge, elem_of_union. right. apply elem_of_idSet. eauto.
Qed.

(** ... and, when [G] has no dangling link, all its links either present
    or dangling. *)
Lemma remerge_links G F :
  noDangling G →
  KnowledgeGraphData.links (merge (merge G F) F) = KnowledgeGraphData.links (merge G F).
Proof.
  intros HG. rewrite (merge_links (merge G F) F), remerge_nodes, filter_app.
  rewrite filter_all by apply merge_noDangling.
  rewrite filter_none; [by rewrite app_nil_r|].
  apply Forall_forall. intros l [Hfresh Hl]%list_elem_of_filter Hres.
  apply Hfresh, elem_of_list_to_set, list_elem_of_fmap. exists l. split; [done|].
  rewrite merge_links. apply list_elem_of_filter. split; [done|].
  apply elem_of_app. right. apply list_elem_of_filter. split; [|done].
  intros (g & Hk & Hg)%elem_of_list_to_set%list_elem_of_fmap.
  apply Hfresh, elem_of_list_to_set, list_elem_of_fmap. exists g.
  split; [done|]. by apply merge_keeps_links.
Qed.

Lemma remerge G F : noDangling G → merge (merge G F) F = merge G F.
Proof.
  intros HG. pose proof (remerge_nodes G F) as Hn. pose proof (remerge_links G F HG) as Hl.
  destruct (merge (merge G F) F), (merge G F). simpl in *. by subst.
Qed.

End Idempotence.

(** * The claims about the store *)

Lemma NoDup_compute `{EqDecision A} (xs : list A) : bool_decide (NoDup xs) = true → NoDup xs.
Proof. apply bool_decide_eq_true_1. Qed.

(** Starting an expansion never touches the graph or the selection. *)
Lemma handleExpandSelection_graphData (s : AppState) :
  graphData (handleExpandSelection s).1 = graphData s.
Proof.
  unfold handleExpandSelection. destruct (graphData s) eqn:Hg; [|done].
  by destruct (decide _).
Qed.

Lemma handleExpandSelection_selectedNodeIds (s : AppState) :
  selectedNodeIds (handleExpandSelection s).1 = selectedNodeIds s.
Proof.
  unfold handleExpandSelection. destruct (graphData s); [|done].
  by destruct (decide _).
Qed.

(** Handlers other than a settling expansion that finds no graph leave the
    graph cell empty or free of dangling links. *)
Lemma handle_graphResolved (e : Event) (s : AppState) :
  graphResolved s →
  (∀ r, e = ExpandSettled r → is_Some (graphData s)) →
  graphResolved (handle e s).1.
Proof.
  intros Hs He. destruct e as [|[d|m]|[ns ls t st|ns ls|err]| |[d|m]|n|t| |]; simpl.
  - unfold handleGenerate. by destruct (decide (topic s = "")).
  - apply sanitize_noDangling.
  - done.
  - unfold graphResolved. destruct t as [t|], st as [st|]; simpl;
      repeat (destruct (decide _); simpl); apply sanitize_noDangling.
  - apply sanitize_noDangling.
  - done.
  - unfold graphResolved. by rewrite handleExpandSelection_graphData.
  - destruct (He _ eq_refl) as [g Hg]. unfold graphResolved. simpl. rewrite Hg.
    apply merge_noDangling.
  - done.
  - unfold handleNodeClick. by destruct (isSelectionMode s).
  - done.
  - done.
  - done.
Qed.

(** C1, as stated, fails: on a node list that repeats the identifier
    ["A"] and a link list that repeats the link from ["A"] to ["A"],
    [sanitizeGraphData] returns both nodes and both links. *)
Lemma sanitize_keeps_duplicates :
  ¬ wellFormed (sanitizeGraphData [node "A" "a"; node "A" "b"] [link "A" "A"; link "A" "A"]).
Proof.
  intros (Hids & _ & _). unfold uniqueIds in Hids. simpl in Hids.
  apply NoDup_cons in Hids as [Hin _]. apply Hin. by left.
Qed.

(** The same holds of a merge: duplicates inside the fragment are kept. *)
Lemma merge_keeps_fragment_duplicates :
  let F := KnowledgeGraphData.mk [node "C" "c"; node "C" "c2"] [link "C" "A"; link "C" "A"] in
  wellFormed gAB ∧ ¬ uniqueIds (merge gAB F) ∧ ¬ uniqueLinks (merge gAB F).
Proof.
  split_and!.
  - split_and!; [by apply NoDup_compute| |by apply NoDup_compute].
    apply Forall_forall. intros l ->%list_elem_of_singleton. by vm_compute.
  - intros Hn. apply (bool_decide_eq_true_2 _) in Hn. by vm_compute in Hn.
  - intros Hn. apply (bool_decide_eq_true_2 _) in Hn. by vm_compute in Hn.
Qed.

(** C1 (amended): what the mutations do guarantee. The output of
    [sanitizeGraphData] and of a merge into an existing graph has no
    dangling link (invariant 2); unique identifiers and unique links
    (invariants 1 and 3) hold of the output when they hold of the inputs,
    the raw lists for [sanitizeGraphData], the existing graph and the
    fragment for a merge; and generation, import and expansion onto an
    existing graph keep the graph cell free of dangling links. *)
Theorem mutations_preserve_invariants
    (ns : list GraphNode.t) (ls : list GraphLink.t) (G F : Graph) (e : Event) (s : AppState) :
  (noDangling (sanitizeGraphData ns ls)
   ∧ (NoDup (GraphNode.id <$> ns) → uniqueIds (sanitizeGraphData ns ls))
   ∧ (NoDup (linkPair <$> ls) → uniqueLinks (sanitizeGraphData ns ls)))
  ∧ (noDangling (merge G F)
     ∧ (uniqueIds G → uniqueIds F → uniqueIds (merge G F))
     ∧ (uniqueLinks G → uniqueLinks F → uniqueLinks (merge G F)))
  ∧ (graphResolved s →
     (∀ r, e = ExpandSettled r → is_Some (graphData s)) →
     graphResolved (handle e s).1).
Proof.
  split_and!.
  - apply sanitize_noDangling.
  - apply sanitize_uniqueIds.
  - apply sanitize_uniqueLinks.
  - apply merge_noDangling.
  - apply merge_uniqueIds.
  - apply merge_uniqueLinks.
  - apply handle_graphResolved.
Qed.

Lemma mutations_preserve_invariants_witness :
  wellFormed (sanitizeGraphData [node "A" "a"; node "B" "b"] [link "A" "B"; link "A" "Z"])
  ∧ wellFormed (merge gAB fBC)
  ∧ graphResolved (handle (ExpandSettled (Fulfilled fBC)) (showing gAB {["A"]})).1.
Proof.
  destruct (mutations_preserve_invariants
              [node "A" "a"; node "B" "b"] [link "A" "B"; link "A" "Z"] gAB fBC
              (ExpandSettled (Fulfilled fBC)) (showing gAB {["A"]}))
    as ((S1 & S2 & S3) & (M1 & M2 & M3) & HA).
  split_and!.
  - split_and!; [apply S2|apply S1|apply S3]; by apply NoDup_compute.
  - split_and!; [apply M2|apply M1|apply M3]; by apply NoDup_compute.
  - apply HA.
    + apply Forall_forall. intros l ->%list_elem_of_singleton. by vm_compute.
    + intros _ _. by eexists.
Defined.

(** C2: no dangling reference survives a merge. For every existing graph
    [G] and every raw fragment [F], both endpoints of every link of
    [merge G F] are identifiers of nodes of [merge G F]; and a fragment
    link with an endpoint that is neither a node of [G] nor of the fragment
    is dropped, the merge being the same as without it. *)
Theorem merge_no_dangling (G F : Graph) :
  Forall (λ l, sourceId l ∈ idSet (KnowledgeGraphData.nodes (merge G F))
               ∧ targetId l ∈ idSet (KnowledgeGraphData.nodes (merge G F)))
         (KnowledgeGraphData.links (merge G F))
  ∧ ∀ l : GraphLink.t,
      ¬ resolves (idSet (KnowledgeGraphData.nodes G) ∪ idSet (KnowledgeGraphData.nodes F)) l →
      (l ∉ KnowledgeGraphData.links (merge G F))
      ∧ (merge G (KnowledgeGraphData.mk (KnowledgeGraphData.nodes F)
                                        (l :: KnowledgeGraphData.links F))
         = merge G F).
Proof.
  split; [apply merge_noDangling|].
  intros l Hl. rewrite <- idSet_merge in Hl. split.
  - intros Hin. apply Hl.
    pose proof (merge_noDangling G F) as HM. by eapply Forall_forall in HM.
  - unfold merge in *. simpl in *. f_equal.
    rewrite filter_cons. destruct (decide _); [|done].
    rewrite !filter_app. f_equal. by rewrite filter_cons_False.
Qed.

Lemma merge_no_dangling_witness :
  (link "X" "Y" ∉ KnowledgeGraphData.links (merge gAB fXY))
  ∧ (merge gAB fXY = merge gAB (KnowledgeGraphData.mk [] [])).
Proof.
  destruct (merge_no_dangling gAB (KnowledgeGraphData.mk [] [])) as [_ Hdrop].
  apply (Hdrop (link "X" "Y")).
  intros [Hx _]. vm_compute in Hx. by apply (bool_decide_eq_true_2 _) in Hx.
Defined.

(** C3: merging the same fragment again changes nothing. For every graph
    [G] (its links resolve, as the data model requires of a graph) and
    every raw fragment [F], [merge (merge G F) F] and [merge G F] have the
    same node-identifier set and the same set of (source, target) pairs;
    they are in fact the same graph. *)
Theorem merge_idempotent (G F : Graph) :
  noDangling G →
  idSet (KnowledgeGraphData.nodes (merge (merge G F) F))
  = idSet (KnowledgeGraphData.nodes (merge G F))
  ∧ (list_to_set (linkPair <$> KnowledgeGraphData.links (merge (merge G F) F))
       : gset (string * string))
    = list_to_set (linkPair <$> KnowledgeGraphData.links (merge G F))
  ∧ merge (merge G F) F = merge G F.
Proof. intros HG. by rewrite (remerge G F HG). Qed.

Lemma merge_idempotent_witness : merge (merge gAB fBC) fBC = merge gAB fBC.
Proof.
  apply (merge_idempotent gAB fBC).
  apply Forall_forall. intros l ->%list_elem_of_singleton. by vm_compute.
Defined.

(** Without that requirement on [G] the second merge can add a link: a
    dangling link of [G] shadows, through its key, a fragment link that
    resolves. *)
Remark remerge_needs_resolved_links :
  let G := KnowledgeGraphData.mk [node "a" "3"; node "b-c" "4"] [link "a-b" "c"] in
  ¬ noDangling G
  ∧ KnowledgeGraphData.links (merge G fHyphen) = []
  ∧ KnowledgeGraphData.links (merge (merge G fHyphen) fHyphen) = [link "a" "b-c"].
Proof.
  split_and!; [|by vm_compute..].
  intros HG. apply Forall_inv in HG as [Hs _].
  vm_compute in Hs. by apply (bool_decide_eq_true_2 _) in Hs.
Qed.

(** C4: existing wins. For an identifier already in [G], the nodes of
    [merge G F] that carry it are exactly those of [G]: the data of [G] is
    retained and every fragment node with that identifier is discarded,
    whatever its label or description. The nodes of [G] come first. *)
Theorem merge_existing_wins (G F : Graph) (i : string) :
  i ∈ idSet (KnowledgeGraphData.nodes G) →
  filter (λ n, GraphNode.id n = i) (KnowledgeGraphData.nodes (merge G F))
  = filter (λ n, GraphNode.id n = i) (KnowledgeGraphData.nodes G)
  ∧ ∃ added, KnowledgeGraphData.nodes (merge G F) = KnowledgeGraphData.nodes G ++ added
             ∧ Forall (λ n, GraphNode.id n ≠ i) added.
Proof.
  intros Hi.
  assert (Forall (λ n, GraphNode.id n ≠ i)
            (filter (λ n, GraphNode.id n ∉ idSet (KnowledgeGraphData.nodes G))
                    (KnowledgeGraphData.nodes F))) as Hadded.
  { apply Forall_forall. intros n [Hn _]%list_elem_of_filter Heq. apply Hn. by rewrite Heq. }
  rewrite merge_nodes. split; [|eauto].
  rewrite filter_app. apply (filter_none (λ n, GraphNode.id n = i)) in Hadded.
  by rewrite Hadded, app_nil_r.
Qed.

Lemma merge_existing_wins_witness :
  filter (λ n, GraphNode.id n = "B") (KnowledgeGraphData.nodes (merge gAB fBC))
  = [node "B" "b"].
Proof.
  destruct (merge_existing_wins gAB fBC "B") as [Hkeep _].
  - vm_compute. by apply (bool_decide_eq_true_1 _).
  - rewrite Hkeep. reflexivity.
Defined.

(** C10: the dedup key of a link is its source identifier, ["-"], and its
    target identifier, so identifiers that contain ["-"] make distinct pairs
    collide: [("a-b","c")] and [("a","b-c")] have the same key, and the
    fragment link [("a","b-c")], which resolves and differs from every link
    of the existing graph, is dropped as a duplicate. *)
Theorem linkKey_collision_drops_distinct_link :
  (∀ l, linkKey l = sourceId l +:+ "-" +:+ targetId l)
  ∧ linkPair (link "a-b" "c") ≠ linkPair (link "a" "b-c")
  ∧ linkKey (link "a-b" "c") = linkKey (link "a" "b-c")
  ∧ resolves (idSet (KnowledgeGraphData.nodes (merge gHyphen fHyphen))) (link "a" "b-c")
  ∧ Forall (λ g, linkPair g ≠ linkPair (link "a" "b-c")) (KnowledgeGraphData.links gHyphen)
  ∧ (link "a" "b-c" ∉ KnowledgeGraphData.links (merge gHyphen fHyphen))
  ∧ KnowledgeGraphData.links (merge gHyphen fHyphen) = KnowledgeGraphData.links gHyphen.
Proof.
  assert (KnowledgeGraphData.links (merge gHyphen fHyphen) = [link "a-b" "c"]) as Hlinks
    by (by vm_compute).
  split_and!.
  - reflexivity.
  - discriminate.
  - reflexivity.
  - split; vm_compute; by apply (bool_decide_eq_true_1 _).
  - repeat constructor. discriminate.
  - rewrite Hlinks. intros Hin%list_elem_of_singleton. discriminate.
  - exact Hlinks.
Qed.

(** * The claims about the handlers *)

Lemma run_app (es es' : list Event) (s : AppState) :
  run (es ++ es') s
  = let '(s1, o1) := run es s in let '(s2, o2) := run es' s1 in (s2, o1 ++ o2).
Proof.
  revert s. induction es as [|e es IH]; intros s; simpl.
  - by destruct (run es' s).
  - unfold seq. destruct (handle e s) as [s1 o1]. rewrite IH.
    destruct (run es s1) as [s2 o2], (run es' s2) as [s3 o3]. by rewrite app_assoc.
Qed.

(** C5, as stated, fails: nothing records which graph an expansion was
    started for. An expansion started on [gAB] that settles after an import
    has replaced the graph by [gX] is merged into [gX]; one that settles
    after a new generation has discarded the graph becomes the graph, with
    its link to the stale identifier ["A"]. *)
Lemma stale_expansion_is_merged :
  let started := run [ExpandSelection] (showing gAB {["A"]}) in
  let replaced := (handle (FileLoaded (ParsedRaw [node "X" "x"] [])) started.1).1 in
  let discarded := (handle Generate started.1).1 in
  started.2 = [CallExpandGraph [("A", "a")] "rocq"]
  ∧ graphData replaced = Some gX
  ∧ graphData (handle (ExpandSettled (Fulfilled fC)) replaced).1
    = Some (KnowledgeGraphData.mk [node "X" "x"; node "C" "c"] [])
  ∧ graphData (handle (ExpandSettled (Fulfilled fC)) replaced).1 ≠ graphData replaced
  ∧ graphData discarded = None
  ∧ graphData (handle (ExpandSettled (Fulfilled fC)) discarded).1 = Some fC
  ∧ graphData (handle (ExpandSettled (Fulfilled fC)) discarded).1 ≠ graphData discarded.
Proof. by vm_compute. Qed.

(** C5 (amended): a settling expansion is merged into whichever graph is
    current at that moment, whatever happened since the call was placed:
    it is merged into the replacing graph, and stored as it is when there
    is no graph. *)
Theorem expansion_merges_into_current_graph (s : AppState) (es : list Event) (F : Graph) :
  graphData (run (ExpandSelection :: es ++ [ExpandSettled (Fulfilled F)]) s).1
  = Some (mergeUpdater F (graphData (run (ExpandSelection :: es) s).1))
  ∧ (∀ G, mergeUpdater F (Some G) = merge G F)
  ∧ mergeUpdater F None = F.
Proof.
  split; [|done].
  change (ExpandSelection :: es ++ [ExpandSettled (Fulfilled F)])
    with ((ExpandSelection :: es) ++ [ExpandSettled (Fulfilled F)]).
  rewrite run_app. by destruct (run (ExpandSelection :: es) s) as [s1 o1].
Qed.

(** C6, as stated, fails: [handleGenerate] clears the graph before it calls
    the collaborator, so after a failed attempt the graph that was present
    before the attempt is gone. *)
Lemma failed_generation_loses_graph :
  let s' := (run [Generate; GenerateSettled (Rejected "boom")] (showing gAB ∅)).1 in
  graphData (showing gAB ∅) = Some gAB
  ∧ graphData s' = None
  ∧ graphData s' ≠ graphData (showing gAB ∅)
  ∧ mainView s' = ErrorBox "boom".
Proof. by vm_compute. Qed.

Lemma orElse_nonempty (a b : string) : b ≠ "" → orElse a b ≠ "".
Proof. unfold orElse. by destruct (decide (a = "")). Qed.

(** C6 (amended): a failed generation is shown as an error message, the
    rejection's message or ["Failed to generate graph"], in place of the
    graph; the failure branch itself does not write the graph, which was
    cleared when the attempt started and stays cleared. *)
Theorem failed_generation_shows_error (s : AppState) (message : string) :
  topic s ≠ "" →
  let s' := (run [Generate; GenerateSettled (Rejected message)] s).1 in
  mainView s' = ErrorBox (orElse message "Failed to generate graph")
  ∧ graphError s' ≠ ""
  ∧ loadingGraph s' = false
  ∧ graphData s' = None
  ∧ graphData (handleGenerate_settled (Rejected message) s).1 = graphData s.
Proof.
  intros Ht. simpl. unfold seq, handleGenerate. destruct (decide (topic s = "")); [done|].
  simpl. pose proof (orElse_nonempty message "Failed to generate graph") as Hne.
  unfold mainView. simpl. destruct (decide _) as [He|_]; [|by auto].
  by apply Hne in He.
Qed.

Lemma failed_generation_shows_error_witness :
  mainView (run [Generate; GenerateSettled (Rejected "")] (showing gAB ∅)).1
  = ErrorBox "Failed to generate graph".
Proof.
  apply (failed_generation_shows_error (showing gAB ∅) ""). discriminate.
Defined.

(** C7, as stated, fails: the [catch] of [handleExpandSelection] only
    prints the error. In a session that shows [gAB] with ["A"] armed, the
    state after a failed expansion is the state after a successful
    expansion with an empty fragment, no error message is set and the graph
    is still shown. *)
Lemma failed_expansion_is_not_surfaced :
  let s := (handle ExpandSelection (showing gAB {["A"]})).1 in
  let failed := (handle (ExpandSettled (Rejected "boom")) s).1 in
  failed = (handle (ExpandSettled (Fulfilled emptyFragment)) s).1
  ∧ graphError failed = ""
  ∧ mainView failed = GraphView gAB {["A"]}.
Proof. by vm_compute. Qed.

(** C7 (amended): when an expansion call fails the graph is unchanged, the
    selection is unchanged, the busy flag is reset, and the failure is only
    printed with [console.error]: the error message of the state is not
    written (it was emptied when the call was placed). *)
Theorem failed_expansion_keeps_graph_and_selection (s : AppState) (message : string) :
  let settled := handleExpandSelection_settled (Rejected message) s in
  let whole := run [ExpandSelection; ExpandSettled (Rejected message)] s in
  (graphData settled.1 = graphData s
   ∧ selectedNodeIds settled.1 = selectedNodeIds s
   ∧ graphError settled.1 = graphError s
   ∧ isExpanding settled.1 = false
   ∧ settled.2 = [ConsoleError message])
  ∧ graphData whole.1 = graphData s
  ∧ selectedNodeIds whole.1 = selectedNodeIds s
  ∧ (graphData s ≠ None → selectedNodeIds s ≠ ∅ → graphError whole.1 = "").
Proof.
  split; [done|]. simpl. unfold seq.
  pose proof (handleExpandSelection_graphData s) as Hg.
  pose proof (handleExpandSelection_selectedNodeIds s) as Hsel.
  destruct (handleExpandSelection s) as [s1 o1] eqn:Hs1. simpl in *.
  split_and!; [done..|]. intros Hsome Hne.
  unfold handleExpandSelection in Hs1. destruct (graphData s) as [g|]; [|done].
  destruct (decide (size (selectedNodeIds s) = 0)) as [Hz|_].
  - by apply size_empty_inv, leibniz_equiv in Hz.
  - by injection Hs1 as <- _.
Qed.

Lemma failed_expansion_keeps_graph_and_selection_witness :
  graphError (run [ExpandSelection; ExpandSettled (Rejected "boom")]
                  (setGraphError "old" (showing gAB {["A"]}))).1 = "".
Proof.
  destruct (failed_expansion_keeps_graph_and_selection
              (setGraphError "old" (showing gAB {["A"]})) "boom") as (_ & _ & _ & Herr).
  apply Herr; [discriminate|].
  intros Hempty. assert ("A" ∈ (∅ : gset string)) as Hin by (rewrite <- Hempty; set_solver).
  set_solver.
Defined.

(** C8: expanding with an empty selection is a no-op: the state, the graph
    with it, is returned as it is and no collaborator is called. *)
Theorem expand_empty_selection_noop (s : AppState) :
  selectedNodeIds s = ∅ →
  handleExpandSelection s = (s, []).
Proof.
  intros Hsel. unfold handleExpandSelection. destruct (graphData s); [|done].
  rewrite Hsel, size_empty. by destruct (decide (0 = 0)).
Qed.

Lemma expand_empty_selection_noop_witness :
  handleExpandSelection (showing gAB ∅) = (showing gAB ∅, []).
Proof. apply expand_empty_selection_noop. reflexivity. Defined.

(** * The claim about the visualizer *)

Section VisualizerFacts.
Context `{D3}.

Lemma restyle_keeps_position (sel : gset string) (e : NodeElem) :
  datum (restyle sel e) = datum e ∧ transform (restyle sel e) = transform e.
Proof. done. Qed.

Lemma restyle_attributes (sel : gset string) (e : NodeElem) :
  (GraphNode.id (datum e) ∈ sel →
   stroke (restyle sel e) = "#34d399" ∧ strokeWidth (restyle sel e) = "4"
   ∧ r (restyle sel e) = "24")
  ∧ (GraphNode.id (datum e) ∉ sel →
     stroke (restyle sel e) = "#374151" ∧ strokeWidth (restyle sel e) = "1.5"
     ∧ r (restyle sel e) = "20").
Proof.
  unfold restyle. simpl. split; intros Hin.
  - by rewrite bool_decide_eq_true_2.
  - by rewrite bool_decide_eq_false_2.
Qed.

(** C9: a render in which the graph object and the dimensions object are
    the ones of the previous render leaves the simulation as it is: it is
    neither stopped nor created anew, and its next tick is the one it would
    have made. When the selection set is a new object, the only thing done
    is the restyling of the circles: stroke, stroke width and radius follow
    the selection, the datum and the position of every node group stay.
    The simulation is replaced only by a render whose graph or dimensions
    object is new. *)
Theorem selection_change_keeps_simulation (prev cur : Render) (st : VizState) :
  sameOptObj (data prev) (data cur) = true →
  sameObj (dimensions prev) (dimensions cur) = true →
  let st' := commit (Some prev) cur st in
  simulation st' = simulation st
  ∧ simulation (onTick st') = simulation (onTick st)
  ∧ datum <$> svg st' = datum <$> svg st
  ∧ transform <$> svg st' = transform <$> svg st
  ∧ (SimulationStopped ∉ drop (length (ops st)) (ops st'))
  ∧ (SimulationCreated ∉ drop (length (ops st)) (ops st'))
  ∧ (sameObj (selected prev) (selected cur) = false →
     svg st' = restyle (value (selected cur)) <$> svg st
     ∧ ops st' = ops st ++ [CirclesRestyled]
     ∧ Forall (λ e, r e = (if bool_decide (GraphNode.id (datum e) ∈ value (selected cur))
                           then "24" else "20")
                    ∧ stroke e = (if bool_decide (GraphNode.id (datum e) ∈ value (selected cur))
                                  then "#34d399" else "#374151")
                    ∧ strokeWidth e
                      = (if bool_decide (GraphNode.id (datum e) ∈ value (selected cur))
                         then "4" else "1.5"))
              (svg st')).
Proof.
  intros Hdata Hdim. unfold commit.
  generalize (handlerDepsChanged (Some prev) cur). intros b.
  unfold structureDepsChanged, highlightDepsChanged.
  rewrite Hdata, Hdim, andb_true_r. simpl.
  set (st1 := when b (handlerEffect cur) st).
  assert (svg st1 = svg st ∧ simulation st1 = simulation st ∧ ops st1 = ops st)
    as (Hsvg & Hsim & Hops).
  { unfold st1, when. by destruct b. }
  clearbody st1.
  destruct (sameObj (selected prev) (selected cur)) eqn:Hsel; simpl.
  - rewrite Hsvg, Hops, drop_all. unfold onTick. rewrite Hsim.
    split_and!; try done; try apply not_elem_of_nil.
    destruct (simulation st) eqn:Hlive; simpl; congruence.
  - rewrite Hsvg, Hops, drop_app_length. unfold onTick. simpl. rewrite Hsim.
    rewrite <- !list_fmap_compose.
    split_and!; try done.
    + destruct (simulation st) eqn:Hlive; simpl; congruence.
    + by intros ?%list_elem_of_singleton.
    + by intros ?%list_elem_of_singleton.
    + intros _. split_and!; try done.
      apply Forall_forall. by intros e (e0 & -> & _)%list_elem_of_fmap.
Qed.

(** Conversely, a render with a new graph object rebuilds the simulation. *)
Lemma new_data_rebuilds_simulation (prev cur : Render) (st : VizState) (d : Obj Graph) :
  data cur = Some d →
  KnowledgeGraphData.nodes (value d) ≠ [] →
  sameOptObj (data prev) (data cur) = false →
  simulation (commit (Some prev) cur st)
  = Some (forceSimulation (KnowledgeGraphData.nodes (value d))
            (KnowledgeGraphData.links (value d))
            (width (value (dimensions cur))) (height (value (dimensions cur)))).
Proof.
  intros Hd Hne Hchanged. unfold commit, structureDepsChanged, highlightDepsChanged.
  rewrite Hchanged, andb_false_r. simpl.
  unfold structureEffect. rewrite Hd.
  by destruct (KnowledgeGraphData.nodes (value d)).
Qed.

End VisualizerFacts.

Lemma selection_change_keeps_simulation_witness :
  let st := onTick (H := tickCounter) (commit None firstRender unmounted) in
  simulation (commit (Some firstRender) renderAfterToggle st) = Some 1
  ∧ r <$> svg (commit (Some firstRender) renderAfterToggle st) = ["24"; "20"].
Proof.
  destruct (selection_change_keeps_simulation (H := tickCounter) firstRender renderAfterToggle
              (onTick (H := tickCounter) (commit None firstRender unmounted)))
    as (Hsim & _ & _ & _ & _ & _ & Hsel); [reflexivity..|].
  destruct Hsel as (Hsvg & _); [reflexivity|].
  cbv zeta. rewrite Hsim, Hsvg. split; reflexivity.
Defined.

(** * Further properties of the graph store *)

Section StoreLaws.
Implicit Types (G F : Graph) (l : GraphLink.t).

Lemma sanitize_resolved G :
  noDangling G →
  sanitizeGraphData (KnowledgeGraphData.nodes G) (KnowledgeGraphData.links G) = G.
Proof.
  intros HG. destruct G as [gn gl]. unfold sanitizeGraphData. simpl. f_equal.
  by apply filter_all.
Qed.

(** [sanitizeGraphData] is idempotent, and it returns a graph unchanged
    exactly when the graph has no dangling link. *)
Theorem sanitize_fixed_point (ns : list GraphNode.t) (ls : list GraphLink.t) G :
  (let g := sanitizeGraphData ns ls in
   sanitizeGraphData (KnowledgeGraphData.nodes g) (KnowledgeGraphData.links g) = g)
  ∧ (sanitizeGraphData (KnowledgeGraphData.nodes G) (KnowledgeGraphData.links G) = G
     ↔ noDangling G).
Proof.
  split.
  - unfold sanitizeGraphData. simpl. f_equal.
    apply filter_all, filter_resolves_noDangling.
  - split.
    + intros <-. apply sanitize_noDangling.
    + apply sanitize_resolved.
Qed.

Lemma sanitize_fixed_point_witness :
  sanitizeGraphData (KnowledgeGraphData.nodes gAB) (KnowledgeGraphData.links gAB) = gAB.
Proof.
  apply (sanitize_fixed_point [] [] gAB).
  apply Forall_forall. intros l ->%list_elem_of_singleton. by vm_compute.
Defined.

(** Merging a fragment into the empty graph is [sanitizeGraphData] of the
    fragment, and merging the empty fragment into a graph is
    [sanitizeGraphData] of the graph, hence the graph itself when it has no
    dangling link. *)
Theorem merge_empty G F :
  merge emptyFragment F
  = sanitizeGraphData (KnowledgeGraphData.nodes F) (KnowledgeGraphData.links F)
  ∧ merge G emptyFragment
    = sanitizeGraphData (KnowledgeGraphData.nodes G) (KnowledgeGraphData.links G)
  ∧ (noDangling G → merge G emptyFragment = G).
Proof.
  assert (merge G emptyFragment
          = sanitizeGraphData (KnowledgeGraphData.nodes G) (KnowledgeGraphData.links G)) as HG.
  { unfold merge, sanitizeGraphData. simpl. by rewrite !app_nil_r. }
  split_and!; [|done|].
  - unfold merge, sanitizeGraphData, idSet. simpl.
    rewrite (filter_all (λ n, GraphNode.id n ∉ (∅ : gset string)))
      by (apply Forall_forall; intros n _; apply not_elem_of_empty).
    rewrite (filter_all (λ l, linkKey l ∉ (∅ : gset string)))
      by (apply Forall_forall; intros n _; apply not_elem_of_empty).
    done.
  - intros Hres. rewrite HG. by apply sanitize_resolved.
Qed.

Lemma merge_empty_witness : merge gAB emptyFragment = gAB.
Proof.
  apply (merge_empty gAB emptyFragment).
  apply Forall_forall. intros l ->%list_elem_of_singleton. by vm_compute.
Defined.

(** The identifiers of a merged graph are those of the graph and those of
    the fragment, and no node is lost: the merged node list is at least as
    long as the graph's and at most as long as both lists together. *)
Theorem merge_nodes_union G F :
  idSet (KnowledgeGraphData.nodes (merge G F))
  = idSet (KnowledgeGraphData.nodes G) ∪ idSet (KnowledgeGraphData.nodes F)
  ∧ (length (KnowledgeGraphData.nodes G) ≤ length (KnowledgeGraphData.nodes (merge G F)))%nat
  ∧ (length (KnowledgeGraphData.nodes (merge G F))
     ≤ length (KnowledgeGraphData.nodes G) + length (KnowledgeGraphData.nodes F))%nat.
Proof.
  split; [apply idSet_merge|]. rewrite merge_nodes, length_app.
  pose proof (length_filter (λ n, GraphNode.id n ∉ idSet (KnowledgeGraphData.nodes G))
                (KnowledgeGraphData.nodes F)). lia.
Qed.

(** A merge into a graph without dangling links keeps all the links of the
    graph, in their order, in front of the added ones; every added link is
    a fragment link whose key is new and whose endpoints resolve. *)
Theorem merge_links_extend G F :
  noDangling G →
  ∃ added,
    KnowledgeGraphData.links (merge G F) = KnowledgeGraphData.links G ++ added
    ∧ Forall (λ l, l ∈ KnowledgeGraphData.links F
                   ∧ (linkKey l ∉ linkKey <$> KnowledgeGraphData.links G)
                   ∧ resolves (idSet (KnowledgeGraphData.nodes (merge G F))) l) added.
Proof.
  intros HG. rewrite merge_links, filter_app. eexists. split.
  - f_equal. apply filter_all. eapply Forall_impl; [exact HG|].
    intros l. apply resolves_mono. rewrite idSet_merge. apply union_subseteq_l.
  - apply Forall_forall. intros l [Hres [Hkey Hl]%list_elem_of_filter]%list_elem_of_filter.
    split_and!; [done| |done]. intros Hin. apply Hkey. by apply elem_of_list_to_set.
Qed.

Lemma merge_links_extend_witness :
  ∃ added, KnowledgeGraphData.links (merge gAB fBC) = KnowledgeGraphData.links gAB ++ added.
Proof.
  destruct (merge_links_extend gAB fBC) as (added & Heq & _).
  - apply Forall_forall. intros l ->%list_elem_of_singleton. by vm_compute.
  - by exists added.
Defined.

End StoreLaws.

Section LinkKeys.
Implicit Types (G F : Graph) (l : GraphLink.t) (s t : string).

Lemma hyphenFree_cons (a : ascii) s :
  hyphenFree (String a s) ↔ a ≠ "-"%char ∧ hyphenFree s.
Proof.
  unfold hyphenFree. simpl. rewrite not_elem_of_cons. intuition congruence.
Qed.

Lemma append_hyphen_inj s s' t t' :
  hyphenFree s → hyphenFree s' →
  s +:+ "-" +:+ t = s' +:+ "-" +:+ t' → s = s' ∧ t = t'.
Proof.
  revert s'. induction s as [|a s IH]; intros [|a' s'] Hs Hs'; simpl.
  - intros [= Ht]. by subst.
  - intros [= Ha _]. apply hyphenFree_cons in Hs' as [Hne _]. by subst.
  - intros [= Ha _]. apply hyphenFree_cons in Hs as [Hne _]. by subst.
  - intros [= Ha Heq]. apply hyphenFree_cons in Hs as [_ Hs].
    apply hyphenFree_cons in Hs' as [_ Hs'].
    destruct (IH s' Hs Hs' Heq) as [Hs1 Ht1]. by subst.
Qed.

Lemma linkKey_determines_pair l l' :
  hyphenFree (sourceId l) → hyphenFree (sourceId l') →
  linkKey l = linkKey l' → linkPair l = linkPair l'.
Proof.
  intros Hl Hl' Hkey. unfold linkKey in Hkey.
  destruct (append_hyphen_inj _ _ _ _ Hl Hl' Hkey) as [Hs Ht].
  unfold linkPair. by rewrite Hs, Ht.
Qed.

(** When the source identifiers contain no ["-"], the dedup key determines
    the (source, target) pair: two links have the same key only if they
    have the same pair. *)
Theorem linkKey_injective l l' :
  hyphenFree (sourceId l) → hyphenFree (sourceId l') →
  linkKey l = linkKey l' → linkPair l = linkPair l'.
Proof. apply linkKey_determines_pair. Qed.

Lemma hyphenFree_compute s :
  bool_decide ("-"%char ∉ String.list_ascii_of_string s) = true → hyphenFree s.
Proof. apply bool_decide_eq_true_1. Qed.

Lemma linkKey_injective_witness :
  linkPair (link "A" "b-c")
  = linkPair (GraphLink.mk (ENode (node "A" "a")) (EId "b-c") None).
Proof.
  apply linkKey_injective; [by apply hyphenFree_compute..|reflexivity].
Defined.

(** With such identifiers the dedup of a merge is exact: a fragment link
    whose endpoints are nodes of the graph or of the fragment and whose
    pair is not the pair of an existing link is in the merged graph. *)
Theorem merge_keeps_new_pairs G F l :
  Forall (λ g, hyphenFree (sourceId g)) (KnowledgeGraphData.links G) →
  hyphenFree (sourceId l) →
  l ∈ KnowledgeGraphData.links F →
  resolves (idSet (KnowledgeGraphData.nodes G) ∪ idSet (KnowledgeGraphData.nodes F)) l →
  linkPair l ∉ linkPair <$> KnowledgeGraphData.links G →
  l ∈ KnowledgeGraphData.links (merge G F).
Proof.
  intros HG Hl Hin Hres Hnew. rewrite merge_links. apply list_elem_of_filter.
  split; [by rewrite idSet_merge|].
  apply elem_of_app. right. apply list_elem_of_filter. split; [|done].
  intros (g & Hkey & Hg)%elem_of_list_to_set%list_elem_of_fmap.
  apply Hnew, list_elem_of_fmap. exists g. split; [|done].
  apply linkKey_determines_pair; [done| |done]. by eapply Forall_forall in HG.
Qed.

Lemma merge_keeps_new_pairs_witness :
  link "B" "C" ∈ KnowledgeGraphData.links (merge gAB fBC).
Proof.
  apply merge_keeps_new_pairs.
  - apply Forall_forall. intros g ->%list_elem_of_singleton. by apply hyphenFree_compute.
  - by apply hyphenFree_compute.
  - apply list_elem_of_In. simpl. auto.
  - split; vm_compute; by apply (bool_decide_eq_true_1 _).
  - intros ?%list_elem_of_singleton. discriminate.
Defined.

End LinkKeys.

(** * Further properties of the handlers *)

Section HandlerLaws.
Implicit Types (s : AppState) (n : GraphNode.t) (g F : Graph).

Lemma setSelectedNodeIds_same s : setSelectedNodeIds (selectedNodeIds s) s = s.
Proof. by destruct s. Qed.

(** In selection mode a click arms a node that is not armed and disarms
    one that is, touches nothing else and calls no collaborator; a second
    click on the same node restores the state. *)
Theorem toggle_selection_involutive s n :
  isSelectionMode s = true →
  let clicked := handleNodeClick n s in
  (GraphNode.id n ∈ selectedNodeIds clicked.1 ↔ GraphNode.id n ∉ selectedNodeIds s)
  ∧ (∀ i, i ≠ GraphNode.id n → i ∈ selectedNodeIds clicked.1 ↔ i ∈ selectedNodeIds s)
  ∧ clicked.2 = []
  ∧ graphData clicked.1 = graphData s
  ∧ run [NodeClick n; NodeClick n] s = (s, []).
Proof.
  intros Hmode. simpl. unfold seq, handleNodeClick, upd, ret. rewrite Hmode. simpl.
  rewrite Hmode.
  destruct (decide (GraphNode.id n ∈ selectedNodeIds s)) as [Hin|Hout]; simpl.
  - split_and!; [set_solver|set_solver|done|done|].
    rewrite decide_False by set_solver.
    replace (selectedNodeIds s ∖ {[GraphNode.id n]} ∪ {[GraphNode.id n]})
      with (selectedNodeIds s).
    + by destruct s.
    + apply set_eq. intros i. rewrite elem_of_union, elem_of_difference, elem_of_singleton.
      destruct (decide (i = GraphNode.id n)); naive_solver.
  - split_and!; [set_solver|set_solver|done|done|].
    rewrite decide_True by set_solver.
    replace ((selectedNodeIds s ∪ {[GraphNode.id n]}) ∖ {[GraphNode.id n]})
      with (selectedNodeIds s).
    + by destruct s.
    + apply set_eq. intros i. rewrite elem_of_difference, elem_of_union, elem_of_singleton.
      naive_solver.
Qed.

Lemma toggle_selection_involutive_witness :
  run [NodeClick (node "B" "b"); NodeClick (node "B" "b")] (showing gAB {["A"]})
  = (showing gAB {["A"]}, []).
Proof. apply toggle_selection_involutive. reflexivity. Defined.

(** Outside selection mode a click opens the panel on the node, leaves the
    graph, the selection and the error message alone, and places exactly
    the plan call and the image call. *)
Theorem details_click_frame s n :
  isSelectionMode s = false →
  let clicked := handleNodeClick n s in
  selectedNode clicked.1 = Some n
  ∧ showPanel clicked.1 = true
  ∧ loadingDetails clicked.1 = true
  ∧ plan clicked.1 = None ∧ imageUrl clicked.1 = None
  ∧ graphData clicked.1 = graphData s
  ∧ selectedNodeIds clicked.1 = selectedNodeIds s
  ∧ graphError clicked.1 = graphError s
  ∧ ∃ prompt, clicked.2 = [CallGenerateActionPlan (GraphNode.label n) (status s) (topic s);
                           CallGenerateConceptImage prompt "1:1"].
Proof.
  intros Hmode. simpl. unfold handleNodeClick. rewrite Hmode. simpl.
  split_and!; try done. by eexists.
Qed.

Lemma details_click_frame_witness :
  selectedNode (handleNodeClick (node "A" "a") initialState).1 = Some (node "A" "a").
Proof. apply (details_click_frame initialState (node "A" "a")). reflexivity. Defined.

(** The results of the detail calls are attached to whichever node the
    panel shows when they arrive: neither the node, the graph nor the
    selection is written, a fulfilled result overwrites the plan or the
    image, a rejected one leaves it, and the loading flag is reset. A plan
    fetched for one node is thus shown under a node clicked meanwhile. *)
Theorem details_settle_on_current_node
    s (planResult : Settled PlanResponse) (imageResult : Settled string)
    (a b : GraphNode.t) (p : PlanResponse) :
  let settled := handleNodeClick_settled planResult imageResult s in
  (selectedNode settled.1 = selectedNode s
   ∧ graphData settled.1 = graphData s
   ∧ selectedNodeIds settled.1 = selectedNodeIds s
   ∧ graphError settled.1 = graphError s
   ∧ loadingDetails settled.1 = false
   ∧ plan settled.1 = match planResult with Fulfilled q => Some q | Rejected _ => plan s end
   ∧ imageUrl settled.1
     = match imageResult with Fulfilled u => Some u | Rejected _ => imageUrl s end
   ∧ settled.2 = [])
  ∧ (isSelectionMode s = false →
     let later := (run [NodeClick a; NodeClick b] s).1 in
     selectedNode (handleNodeClick_settled (Fulfilled p) imageResult later).1 = Some b
     ∧ plan (handleNodeClick_settled (Fulfilled p) imageResult later).1 = Some p).
Proof.
  split.
  - by destruct planResult, imageResult.
  - intros Hmode. simpl. unfold seq, handleNodeClick. simpl. rewrite Hmode. simpl.
    rewrite Hmode. by destruct imageResult.
Qed.

Lemma details_settle_on_current_node_witness :
  let later := (run [NodeClick (node "A" "a"); NodeClick (node "B" "b")] initialState).1 in
  selectedNode
    (handleNodeClick_settled (Fulfilled {| markdown := "plan for A"; sources := [] |})
       (Rejected "no image") later).1
  = Some (node "B" "b").
Proof.
  apply (details_settle_on_current_node initialState (Rejected "") (Rejected "no image")
           (node "A" "a") (node "B" "b") {| markdown := "plan for A"; sources := [] |}).
  reflexivity.
Defined.

(** When both detail calls fail the panel stays open on the clicked node
    with no plan and no image, nothing is loading any more, and no error
    message is set. *)
Theorem details_failure_silent s n (m m' : string) :
  isSelectionMode s = false →
  let s' := (handleNodeClick_settled (Rejected m) (Rejected m') (handleNodeClick n s).1) in
  selectedNode s'.1 = Some n
  ∧ showPanel s'.1 = true
  ∧ plan s'.1 = None ∧ imageUrl s'.1 = None
  ∧ loadingDetails s'.1 = false
  ∧ graphError s'.1 = graphError s
  ∧ s'.2 = [].
Proof.
  intros Hmode. simpl. unfold handleNodeClick. rewrite Hmode. by simpl.
Qed.

Lemma details_failure_silent_witness :
  plan (handleNodeClick_settled (Rejected "x") (Rejected "y")
          (handleNodeClick (node "A" "a") initialState).1).1 = None.
Proof. apply (details_failure_silent initialState (node "A" "a") "x" "y"). reflexivity. Defined.

End HandlerLaws.

Section GraphHandlers.
Implicit Types (s : AppState) (n : GraphNode.t) (g F : Graph).

(** Submitting the form with an empty topic does nothing: the state, the
    graph with it, stays as it is and no collaborator is called. *)
Theorem generate_empty_topic_noop s :
  topic s = "" → handleGenerate s = (s, []).
Proof. intros Ht. unfold handleGenerate. by rewrite decide_True. Qed.

Lemma generate_empty_topic_noop_witness : handleGenerate initialState = (initialState, []).
Proof. apply generate_empty_topic_noop. reflexivity. Defined.

(** A generation that succeeds shows the sanitized graph: after the call
    for the current topic and status has returned [d], the main area shows
    [sanitizeGraphData] of [d], which has no dangling link, with nothing
    selected and the detail panel closed. *)
Theorem generate_success_shows_graph s (d : Graph) :
  topic s ≠ "" →
  let done := run [Generate; GenerateSettled (Fulfilled d)] s in
  let shown := sanitizeGraphData (KnowledgeGraphData.nodes d) (KnowledgeGraphData.links d) in
  done.2 = [CallGenerateKnowledgeGraph (topic s) (status s)]
  ∧ mainView done.1 = GraphView shown ∅
  ∧ noDangling shown
  ∧ getSelectedNodesList done.1 = []
  ∧ selectedNode done.1 = None ∧ plan done.1 = None ∧ showPanel done.1 = false
  ∧ topic done.1 = topic s.
Proof.
  intros Ht. simpl. unfold seq, handleGenerate. rewrite decide_False by done. simpl.
  split_and!; try done.
  - apply sanitize_noDangling.
  - unfold getSelectedNodesList. simpl. apply filter_none.
    apply Forall_forall. intros n _. apply not_elem_of_empty.
Qed.

Lemma generate_success_shows_graph_witness :
  mainView (run [Generate; GenerateSettled (Fulfilled fXY)] (showing gAB {["A"]})).1
  = GraphView emptyFragment ∅.
Proof. apply (generate_success_shows_graph (showing gAB {["A"]}) fXY). discriminate. Defined.

(** A file that is neither an export nor a raw graph only sets the import
    error: graph, topic, status and selection are as before, the error is
    printed, and the main area shows the error in place of the graph. *)
Theorem import_invalid_keeps_state s (error : string) :
  let imported := handleFileChange (ParsedInvalid error) s in
  imported.1 = setGraphError "Failed to import graph: Invalid JSON format." s
  ∧ graphData imported.1 = graphData s
  ∧ selectedNodeIds imported.1 = selectedNodeIds s
  ∧ topic imported.1 = topic s ∧ status imported.1 = status s
  ∧ imported.2 = [ConsoleError error]
  ∧ (loadingGraph s = false →
     mainView imported.1 = ErrorBox "Failed to import graph: Invalid JSON format.").
Proof.
  simpl. split_and!; try done. intros Hload. unfold mainView. simpl. by rewrite Hload.
Qed.

Lemma import_invalid_keeps_state_witness :
  mainView (handleFileChange (ParsedInvalid "Unexpected token") (showing gAB ∅)).1
  = ErrorBox "Failed to import graph: Invalid JSON format.".
Proof. apply (import_invalid_keeps_state (showing gAB ∅) "Unexpected token"). reflexivity. Defined.

(** The two import formats treat the session differently. An export file
    replaces the graph by its sanitized graph, empties the selection,
    closes the details and clears the error; its topic and status replace
    the current ones only when present and not empty. A raw graph file
    replaces the graph and clears the error but keeps topic, status,
    details and the selection set, of which the focus list then shows only
    the identifiers that exist in the new graph. *)
Theorem import_formats
    s (ns : list GraphNode.t) (ls : list GraphLink.t) (t st : option string) :
  let exported := (handleFileChange (ParsedExport ns ls t st) s).1 in
  let raw := (handleFileChange (ParsedRaw ns ls) s).1 in
  (graphData exported = Some (sanitizeGraphData ns ls)
   ∧ graphError exported = ""
   ∧ selectedNodeIds exported = ∅
   ∧ getSelectedNodesList exported = []
   ∧ selectedNode exported = None ∧ plan exported = None ∧ showPanel exported = false
   ∧ topic exported = match t with Some x => orElse x (topic s) | None => topic s end
   ∧ status exported = match st with Some x => orElse x (status s) | None => status s end)
  ∧ (graphData raw = Some (sanitizeGraphData ns ls)
     ∧ graphError raw = ""
     ∧ selectedNodeIds raw = selectedNodeIds s
     ∧ getSelectedNodesList raw = filter (λ n, GraphNode.id n ∈ selectedNodeIds s) ns
     ∧ selectedNode raw = selectedNode s ∧ plan raw = plan s
     ∧ topic raw = topic s ∧ status raw = status s).
Proof.
  split; [|done].
  unfold orElse.
  destruct t as [x|], st as [y|]; simpl; unfold setIfTruthy, seq;
    repeat (destruct (decide _); simpl);
    unfold getSelectedNodesList; simpl; split_and!; try done;
    apply filter_none, Forall_forall; intros ? _; apply not_elem_of_empty.
Qed.



(** The busy flag is lowered when the expansion settles, whether it
    succeeded or failed, and nothing but the graph and the flag is written:
    selection, error message, topic and details are as before. *)
Theorem expand_settled_lowers_busy s (r : Settled Graph) :
  let settled := (handleExpandSelection_settled r s).1 in
  isExpanding settled = false
  ∧ selectedNodeIds settled = selectedNodeIds s
  ∧ graphError settled = graphError s
  ∧ topic settled = topic s
  ∧ selectedNode settled = selectedNode s ∧ plan settled = plan s
  ∧ loadingGraph settled = loadingGraph s
  ∧ isExpanding (run [ExpandSelection; ExpandSettled r] s).1 = false.
Proof.
  split_and!; try by destruct r.
  simpl. unfold seq. destruct (handleExpandSelection s) as [s1 o1]. by destruct r.
Qed.

(** A successful expansion does not change the focus list when every armed
    identifier is a node of the graph: the nodes it adds carry identifiers
    the graph did not have. *)
Theorem expand_keeps_focus_list s g F :
  graphData s = Some g →
  selectedNodeIds s ⊆ idSet (KnowledgeGraphData.nodes g) →
  getSelectedNodesList (handleExpandSelection_settled (Fulfilled F) s).1
  = getSelectedNodesList s.
Proof.
  intros Hg Hsub. unfold getSelectedNodesList.
  change (graphData (handleExpandSelection_settled (Fulfilled F) s).1)
    with (Some (mergeUpdater F (graphData s))).
  change (selectedNodeIds (handleExpandSelection_settled (Fulfilled F) s).1)
    with (selectedNodeIds s).
  rewrite Hg. unfold mergeUpdater. rewrite merge_nodes, filter_app.
  rewrite (filter_none (λ n, GraphNode.id n ∈ selectedNodeIds s)
             (filter _ (KnowledgeGraphData.nodes F))); [by rewrite app_nil_r|].
  apply Forall_forall. intros n [Hnew _]%list_elem_of_filter Hin. by apply Hnew, Hsub.
Qed.

Lemma expand_keeps_focus_list_witness :
  getSelectedNodesList (handleExpandSelection_settled (Fulfilled fBC) (showing gAB {["B"]})).1
  = [node "B" "b"].
Proof.
  rewrite (expand_keeps_focus_list (showing gAB {["B"]}) gAB fBC).
  - reflexivity.
  - reflexivity.
  - intros i Hi. change (i ∈ ({["B"]} : gset string)) in Hi.
    apply elem_of_singleton in Hi as ->. apply elem_of_idSet. exists (node "B" "b").
    split; [done|]. apply list_elem_of_In. simpl. auto.
Defined.

End GraphHandlers.

(** * Further properties of the visualizer *)

Section VisualizerLaws.
Context `{D3}.

Lemma sameObj_refl {A} (o : Obj A) : sameObj o o = true.
Proof. unfold sameObj. by apply bool_decide_eq_true_2. Qed.

Lemma sameOptObj_refl {A} (o : option (Obj A)) : sameOptObj o o = true.
Proof. destruct o; [apply sameObj_refl|done]. Qed.

Lemma structureEffect_draws (cur : Render) (st : VizState) (d : Obj Graph) :
  data cur = Some d →
  KnowledgeGraphData.nodes (value d) ≠ [] →
  structureEffect cur st
  = mkViz (onNodeClickRef st) (drawNode <$> KnowledgeGraphData.nodes (value d))
      (Some (forceSimulation (KnowledgeGraphData.nodes (value d))
               (KnowledgeGraphData.links (value d))
               (width (value (dimensions cur))) (height (value (dimensions cur)))))
      (ops st ++ [SvgCleared; SimulationCreated]).
Proof.
  intros Hd Hne. unfold structureEffect. rewrite Hd.
  by destruct (KnowledgeGraphData.nodes (value d)).
Qed.

(** A resize loses the highlighting. When the window is resized the graph
    is drawn again for the new dimensions, with a new simulation and every
    circle in its default style, and the highlight effect does not run
    because neither the selection nor the graph object is new: armed nodes
    are drawn as unarmed until the selection changes. *)
Theorem resize_drops_highlight
    (prev : Render) (st : VizState) (fresh w h : nat) (d : Obj Graph) :
  fresh ≠ identity (dimensions prev) →
  data prev = Some d →
  KnowledgeGraphData.nodes (value d) ≠ [] →
  let st' := commit (Some prev) (handleResize fresh w h prev) st in
  svg st' = drawNode <$> KnowledgeGraphData.nodes (value d)
  ∧ Forall (λ e, r e = "20" ∧ stroke e = "#374151" ∧ strokeWidth e = "1.5") (svg st')
  ∧ simulation st'
    = Some (forceSimulation (KnowledgeGraphData.nodes (value d))
              (KnowledgeGraphData.links (value d)) w h)
  ∧ (CirclesRestyled ∉ drop (length (ops st)) (ops st')).
Proof.
  intros Hfresh Hd Hne. unfold commit.
  assert (structureDepsChanged (Some prev) (handleResize fresh w h prev) = true) as ->.
  { simpl. rewrite sameOptObj_refl. simpl. unfold sameObj. simpl.
    by rewrite bool_decide_eq_false_2. }
  assert (highlightDepsChanged (Some prev) (handleResize fresh w h prev) = false) as ->.
  { simpl. by rewrite sameObj_refl, sameOptObj_refl. }
  assert (handlerDepsChanged (Some prev) (handleResize fresh w h prev) = false) as ->.
  { simpl. by rewrite bool_decide_eq_true_2. }
  unfold when.
  rewrite (structureEffect_draws (handleResize fresh w h prev) _ d Hd Hne). simpl.
  split_and!; [done| |done|].
  - apply Forall_forall. by intros e (n & -> & _)%list_elem_of_fmap.
  - unfold structureCleanup. destruct (simulation st); simpl.
    + rewrite <- app_assoc, drop_app_length.
      intros Hin. apply list_elem_of_In in Hin. simpl in Hin. naive_solver.
    + rewrite drop_app_length.
      intros Hin. apply list_elem_of_In in Hin. simpl in Hin. naive_solver.
Qed.

End VisualizerLaws.

Lemma resize_drops_highlight_witness :
  let st := commit (H := tickCounter) (Some firstRender) renderAfterToggle
              (commit None firstRender unmounted) in
  r <$> svg st = ["24"; "20"]
  ∧ r <$> svg (commit (Some renderAfterToggle) (handleResize 5 1024 768 renderAfterToggle) st)
    = ["20"; "20"].
Proof.
  split; [reflexivity|].
  destruct (resize_drops_highlight (H := tickCounter) renderAfterToggle
              (commit (Some firstRender) renderAfterToggle (commit None firstRender unmounted))
              5 1024 768 {| identity := 1; value := gAB |}) as (Hsvg & _).
  - simpl. lia.
  - reflexivity.
  - discriminate.
  - rewrite Hsvg. reflexivity.
Defined.

Section VisualizerRebuild.
Context `{D3}.

Lemma when_true (f : VizState → VizState) (st : VizState) : when true f st = f st.
Proof. done. Qed.

(** On a render of the mounted component whose graph object is new and
    has nodes, the graph is drawn again, one circle per node in the order
    of the node list, with a new simulation, and the highlight effect runs
    after it: the new circles are styled by the current selection even
    when the selection object is the old one. *)
Theorem new_graph_is_drawn_and_styled
    (prev cur : Render) (st : VizState) (d : Obj Graph) :
  sameOptObj (data prev) (data cur) = false →
  data cur = Some d →
  KnowledgeGraphData.nodes (value d) ≠ [] →
  let st' := commit (Some prev) cur st in
  svg st' = restyle (value (selected cur)) ∘ drawNode <$> KnowledgeGraphData.nodes (value d)
  ∧ datum <$> svg st' = KnowledgeGraphData.nodes (value d)
  ∧ simulation st'
    = Some (forceSimulation (KnowledgeGraphData.nodes (value d))
              (KnowledgeGraphData.links (value d))
              (width (value (dimensions cur))) (height (value (dimensions cur))))
  ∧ ∃ before, ops st' = before ++ [SvgCleared; SimulationCreated; CirclesRestyled].
Proof.
  intros Hprev Hd Hne. unfold commit.
  assert (structureDepsChanged (Some prev) cur = true) as ->.
  { simpl. by rewrite Hprev. }
  assert (highlightDepsChanged (Some prev) cur = true) as ->.
  { simpl. by rewrite Hprev, andb_false_r. }
  rewrite !when_true, (structureEffect_draws cur _ d Hd Hne).
  unfold highlightEffect. simpl. rewrite <- !list_fmap_compose.
  split_and!; [done| |done|].
  - by rewrite list_fmap_id.
  - eexists. rewrite <- app_assoc. reflexivity.
Qed.

(** A render whose new graph is absent or has no node stops the simulation
    and draws nothing: the circles of the previous graph stay in the SVG,
    restyled by the highlight effect. *)
Theorem empty_graph_leaves_circles (prev cur : Render) (st : VizState) :
  sameOptObj (data prev) (data cur) = false →
  match data cur with None => True | Some d => KnowledgeGraphData.nodes (value d) = [] end →
  let st' := commit (Some prev) cur st in
  simulation st' = None
  ∧ svg st' = restyle (value (selected cur)) <$> svg st
  ∧ datum <$> svg st' = datum <$> svg st
  ∧ (SvgCleared ∉ drop (length (ops st)) (ops st'))
  ∧ (SimulationCreated ∉ drop (length (ops st)) (ops st')).
Proof.
  intros Hchanged Hempty. unfold commit.
  assert (structureDepsChanged (Some prev) cur = true) as ->.
  { simpl. by rewrite Hchanged. }
  assert (highlightDepsChanged (Some prev) cur = true) as ->.
  { simpl. by rewrite Hchanged, andb_false_r. }
  generalize (handlerDepsChanged (Some prev) cur). intros b.
  assert (∀ st0, structureEffect cur st0 = st0) as Hskip.
  { intros st0. unfold structureEffect. destruct (data cur) as [d|]; [|done].
    by rewrite Hempty. }
  rewrite !when_true, Hskip.
  set (st1 := structureCleanup st).
  assert (svg st1 = svg st ∧ simulation st1 = None
          ∧ ∃ stopped, ops st1 = ops st ++ stopped
                       ∧ (SvgCleared ∉ stopped) ∧ (SimulationCreated ∉ stopped))
    as (Hsvg & Hsim & stopped & Hops & Hc & Hs).
  { unfold st1, structureCleanup. destruct (simulation st) eqn:Hlive; simpl.
    - split_and!; [done..|]. exists [SimulationStopped].
      split_and!; [done|..]; by intros ?%list_elem_of_singleton.
    - split_and!; [done..|]. exists []. rewrite app_nil_r.
      split_and!; [done|..]; apply not_elem_of_nil. }
  clearbody st1. cbv zeta. unfold highlightEffect. simpl.
  assert (svg (when b (handlerEffect cur) st1) = svg st1
          ∧ simulation (when b (handlerEffect cur) st1) = simulation st1
          ∧ ops (when b (handlerEffect cur) st1) = ops st1) as (-> & -> & ->).
  { by destruct b. }
  rewrite Hsvg, Hsim, Hops, <- app_assoc, drop_app_length, <- list_fmap_compose.
  split_and!; [done..| |].
  - rewrite not_elem_of_app. split; [done|]. by intros ?%list_elem_of_singleton.
  - rewrite not_elem_of_app. split; [done|]. by intros ?%list_elem_of_singleton.
Qed.

(** A tick and a restyling do not interfere: the tick writes only the
    positions, the restyling only the circle attributes, and they commute.
    Without a live simulation a tick changes nothing. *)
Theorem tick_and_highlight_commute (cur : Render) (st : VizState) :
  onTick (highlightEffect cur st) = highlightEffect cur (onTick st)
  ∧ (r <$> svg (onTick st) = r <$> svg st
     ∧ stroke <$> svg (onTick st) = stroke <$> svg st
     ∧ strokeWidth <$> svg (onTick st) = strokeWidth <$> svg st
     ∧ datum <$> svg (onTick st) = datum <$> svg st)
  ∧ (simulation st = None → onTick st = st)
  ∧ (∀ sim, simulation st = Some sim →
       simulation (onTick st) = Some (tick sim)
       ∧ transform <$> svg (onTick st)
         = (λ e, Some (translate (tick sim) (datum e))) <$> svg st).
Proof.
  unfold onTick, highlightEffect. simpl. destruct (simulation st) as [sim|] eqn:Hlive; simpl.
  - rewrite <- !list_fmap_compose. split_and!; try done.
    intros sim' [= <-]. split; [done|]. apply list_fmap_ext. by intros i e _.
  - split_and!; try done. by rewrite Hlive.
Qed.

Lemma when_keeps_ref (b : bool) (f : VizState → VizState) (st : VizState) :
  (∀ st0, onNodeClickRef (f st0) = onNodeClickRef st0) →
  onNodeClickRef (when b f st) = onNodeClickRef st.
Proof. intros Hf. by destruct b. Qed.

(** The click handler kept in [onNodeClickRef] is always the one of the
    latest render; a render that changes nothing but the handler writes
    the ref and nothing else. *)
Theorem handler_ref_is_latest (prev : option Render) (cur : Render) (st : VizState) :
  match prev with None => True | Some p => onNodeClickRef st = onNodeClick p end →
  onNodeClickRef (commit prev cur st) = onNodeClick cur
  ∧ ∀ p, prev = Some p →
         sameOptObj (data p) (data cur) = true →
         sameObj (dimensions p) (dimensions cur) = true →
         sameObj (selected p) (selected cur) = true →
         commit prev cur st = mkViz (onNodeClick cur) (svg st) (simulation st) (ops st).
Proof.
  intros Hinv.
  assert (∀ st0, onNodeClickRef (structureCleanup st0) = onNodeClickRef st0) as Hclean.
  { intros st0. unfold structureCleanup. by destruct (simulation st0). }
  assert (∀ st0, onNodeClickRef (structureEffect cur st0) = onNodeClickRef st0) as Hdraw.
  { intros st0. unfold structureEffect. destruct (data cur) as [d|]; [|done].
    by destruct (KnowledgeGraphData.nodes (value d)). }
  split.
  - unfold commit. rewrite !when_keeps_ref by done.
    destruct prev as [p|]; [|done]. unfold handlerDepsChanged.
    destruct (decide (onNodeClick p = onNodeClick cur)) as [Heq|Hne].
    + rewrite bool_decide_eq_true_2 by done. unfold when at 1. simpl.
      rewrite when_keeps_ref by done. congruence.
    + by rewrite bool_decide_eq_false_2.
  - intros p -> Hdata Hdim Hsel. unfold commit. simpl.
    rewrite Hdata, Hdim, Hsel. simpl. unfold when.
    destruct (decide (onNodeClick p = onNodeClick cur)) as [Heq|Hne].
    + rewrite bool_decide_eq_true_2 by done. simpl. destruct st. simpl in *. congruence.
    + by rewrite bool_decide_eq_false_2.
Qed.

End VisualizerRebuild.

Lemma new_graph_is_drawn_and_styled_witness :
  let sized := handleResize 5 800 600 firstRender in
  let armed := {| data := data sized; onNodeClick := 11;
                  selected := {| identity := 4; value := {["A"]} |};
                  dimensions := dimensions sized |} in
  let expanded := {| data := Some {| identity := 8; value := merge gAB fBC |};
                     onNodeClick := 12;
                     selected := selected armed;
                     dimensions := dimensions armed |} in
  let st := commit (H := tickCounter) (Some sized) armed
              (commit (Some firstRender) sized (commit None firstRender unmounted)) in
  r <$> svg st = ["24"; "20"]
  ∧ r <$> svg (commit (Some armed) expanded st) = ["24"; "20"; "20"].
Proof.
  cbv zeta. split; [reflexivity|].
  match goal with
  | |- r <$> svg (commit (Some ?p) ?c ?st0) = _ =>
      destruct (new_graph_is_drawn_and_styled (H := tickCounter) p c st0
                  {| identity := 8; value := merge gAB fBC |}) as (Hsvg & _)
  end.
  - reflexivity.
  - reflexivity.
  - discriminate.
  - rewrite Hsvg. reflexivity.
Defined.

Lemma empty_graph_leaves_circles_witness :
  let shown := commit (H := tickCounter) None firstRender unmounted in
  let cleared := {| data := Some {| identity := 7; value := emptyFragment |};
                    onNodeClick := 10;
                    selected := selected firstRender;
                    dimensions := dimensions firstRender |} in
  datum <$> svg (commit (Some firstRender) cleared shown) = [node "A" "a"; node "B" "b"]
  ∧ simulation (commit (Some firstRender) cleared shown) = None.
Proof.
  cbv zeta.
  destruct (empty_graph_leaves_circles (H := tickCounter) firstRender
              {| data := Some {| identity := 7; value := emptyFragment |};
                 onNodeClick := 10;
                 selected := selected firstRender;
                 dimensions := dimensions firstRender |}
              (commit None firstRender unmounted)) as (Hsim & _ & Hdatum & _).
  - reflexivity.
  - reflexivity.
  - rewrite Hsim, Hdatum. split; reflexivity.
Defined.

Lemma handler_ref_is_latest_witness :
  onNodeClickRef (commit (H := tickCounter) (Some firstRender) renderAfterToggle
                    (commit None firstRender unmounted)) = 11.
Proof.
  apply (handler_ref_is_latest (H := tickCounter) (Some firstRender) renderAfterToggle
           (commit None firstRender unmounted)).
  reflexivity.
Defined.

(** * File names and the export round trip *)

Section FileNames.
Implicit Types (t : string) (c : ascii).

Lemma slugChar_ok c : isSlugChar (lowerChar (if isAsciiAlnum c then c else "-"%char)) = true.
Proof. by destruct c as [[] [] [] [] [] [] [] []]. Qed.

Lemma slugChar_fixed c :
  isSlugChar c = true → lowerChar (if isAsciiAlnum c then c else "-"%char) = c.
Proof. by destruct c as [[] [] [] [] [] [] [] []]. Qed.

(** The slug of a topic has one character per character of the topic, all
    of them lower-case ASCII letters, digits or ["-"], and a slug is its
    own slug. *)
Theorem slugify_charset t :
  String.length (slugify t) = String.length t
  ∧ Forall (λ c, isSlugChar c = true) (String.list_ascii_of_string (slugify t))
  ∧ slugify (slugify t) = slugify t.
Proof.
  unfold slugify. induction t as [|c t (IHlen & IHchars & IHidem)]; [done|]. simpl.
  split_and!.
  - by rewrite IHlen.
  - constructor; [apply slugChar_ok|done].
  - by rewrite IHidem, slugChar_fixed by apply slugChar_ok.
Qed.

(** The export file is named after the slug of the topic, and
    ["knowledge-graph.json"] exactly when the topic is empty; the notebook
    source has no such fallback: with an empty topic its name starts with
    the ["-"] of its suffix. *)
Theorem exportFileName_fallback t :
  (t = "" → exportFileName t = "knowledge-graph.json")
  ∧ (t ≠ "" → exportFileName t = slugify t +:+ ".json")
  ∧ notebookFileName "" = "-notebook-source.txt".
Proof.
  split_and!; [by intros ->| |done].
  intros Hne. unfold exportFileName, orElse.
  destruct (decide (slugify t = "")) as [Hempty|_]; [|done].
  destruct t as [|c t]; [done|]. discriminate.
Qed.

Lemma exportFileName_fallback_witness :
  exportFileName "" = "knowledge-graph.json"
  ∧ exportFileName "C++ & Rust" = "c-----rust.json".
Proof.
  destruct (exportFileName_fallback "") as (Hempty & _).
  destruct (exportFileName_fallback "C++ & Rust") as (_ & Hname & _).
  split; [by apply Hempty|]. rewrite Hname; [reflexivity|discriminate].
Defined.

(** Export and import round trip: without a graph nothing is exported;
    with a graph that has no dangling link, importing the exported file
    into any session restores that graph, and the topic and status of the
    exporting session whenever they are not empty. *)
Theorem export_import_roundtrip (s s0 : AppState) (g : Graph) :
  (graphData s = None → handleExport s = None)
  ∧ (graphData s = Some g → noDangling g →
     ∃ e, handleExport s = Some (exportFileName (topic s), e)
          ∧ ExportData.version e = 1
          ∧ let s' := (handleFileChange (parseExport e) s0).1 in
            graphData s' = Some g
            ∧ (topic s ≠ "" → topic s' = topic s)
            ∧ (status s ≠ "" → status s' = status s)
            ∧ graphError s' = "" ∧ selectedNodeIds s' = ∅).
Proof.
  unfold handleExport. split; [by intros ->|].
  intros -> Hres. eexists. split; [done|]. split; [done|]. simpl.
  unfold setIfTruthy, seq.
  destruct (decide (topic s = "")), (decide (status s = "")); simpl;
    rewrite (sanitize_resolved g Hres); split_and!; done.
Qed.

Lemma export_import_roundtrip_witness :
  ∃ e, handleExport (showing gAB {["A"]}) = Some ("rocq.json", e)
       ∧ graphData (handleFileChange (parseExport e) initialState).1 = Some gAB
       ∧ topic (handleFileChange (parseExport e) initialState).1 = "rocq".
Proof.
  destruct (export_import_roundtrip (showing gAB {["A"]}) initialState gAB)
    as (_ & Hround).
  destruct Hround as (e & Hexp & _ & Hg & Ht & _).
  - reflexivity.
  - apply Forall_forall. intros l ->%list_elem_of_singleton. by vm_compute.
  - exists e. split_and!; [exact Hexp|exact Hg|]. apply Ht. discriminate.
Defined.

End FileNames.

(** * [cleanJson] *)

Section CleanJson.
Implicit Types (s t u pre mid post pat : string) (c : ascii) (k : nat).

Local Abbreviation chars := String.list_ascii_of_string.

Lemma append_cons c s t : String c s +:+ t = String c (s +:+ t).
Proof. reflexivity. Qed.

Lemma append_assoc s t u : (s +:+ t) +:+ u = s +:+ t +:+ u.
Proof. induction s as [|c s IH]; [done|]. rewrite !append_cons. by f_equal. Qed.

Lemma length_append s t : String.length (s +:+ t) = String.length s + String.length t.
Proof. induction s as [|c s IH]; [done|]. rewrite append_cons. simpl. by f_equal. Qed.

Lemma chars_append s t : chars (s +:+ t) = chars s ++ chars t.
Proof. induction s as [|c s IH]; [done|]. rewrite append_cons. simpl. by f_equal. Qed.

Lemma prefix_length pat s :
  String.prefix pat s = true → (String.length pat ≤ String.length s)%nat.
Proof.
  revert s. induction pat as [|a pat IH]; intros [|b s]; simpl; try done; try lia.
  destruct (ascii_dec a b); [|done]. intros Hp%IH. lia.
Qed.

(** A pattern without [c] matches at a position before a [c] only if it
    matches within the text before that [c]. *)
Lemma prefix_before pat c u t :
  c ∉ chars pat → String.prefix pat (u +:+ String c t) = String.prefix pat u.
Proof.
  revert u. induction pat as [|a pat IH]; intros u Hc.
  { destruct u; [done|by rewrite append_cons]. }
  simpl in Hc. apply not_elem_of_cons in Hc as [Hne Hc].
  destruct u as [|b u].
  - simpl. destruct (ascii_dec a c); [by subst|done].
  - rewrite append_cons. simpl. destruct (ascii_dec a b); [by apply IH|done].
Qed.

Lemma removeAll_go_before pat c k pre t :
  c ∉ chars pat → (k ≤ String.length pre)%nat →
  removeAll_go pat k (pre +:+ String c t)
  = removeAll_go pat k pre +:+ removeAll_go pat 0 (String c t).
Proof.
  intros Hc. revert k. induction pre as [|b pre IH]; intros k Hk.
  - simpl in Hk. by replace k with 0 by lia.
  - destruct k as [|k].
    + rewrite append_cons. cbn [removeAll_go]. rewrite <- append_cons.
      rewrite (prefix_before pat c (String b pre) t Hc).
      destruct (String.prefix pat (String b pre)) eqn:Hp.
      * apply IH. apply prefix_length in Hp. simpl in Hp. lia.
      * rewrite !append_cons. f_equal. apply IH. lia.
    + rewrite append_cons. cbn [removeAll_go]. apply IH. simpl in Hk. lia.
Qed.

(** A pattern that starts with a character absent from [s] passes [s]. *)
Lemma removeAll_go_pass a pat s t :
  a ∉ chars s →
  removeAll_go (String a pat) 0 (s +:+ t) = s +:+ removeAll_go (String a pat) 0 t.
Proof.
  induction s as [|b s IH]; intros Ha; [done|].
  simpl in Ha. apply not_elem_of_cons in Ha as [Hne Ha].
  rewrite !append_cons. cbn [removeAll_go String.prefix].
  destruct (ascii_dec a b); [done|]. by rewrite IH.
Qed.

Lemma removeAll_go_chars pat k s c : c ∈ chars (removeAll_go pat k s) → c ∈ chars s.
Proof.
  revert k. induction s as [|b s IH]; intros k; [done|].
  destruct k as [|k]; cbn [removeAll_go].
  - destruct (String.prefix pat (String b s)).
    + intros Hin%IH. simpl. by right.
    + simpl. rewrite !elem_of_cons. intros [->|Hin%IH]; auto.
  - intros Hin%IH. simpl. by right.
Qed.

Lemma removeAll_braceFree pat s : braceFree s → braceFree (removeAll pat s).
Proof.
  intros [Ho Hc]. split; intros Hin%removeAll_go_chars; auto.
Qed.

(** Removing a fence leaves a backtick-free object between brace-free
    surroundings in place. *)
Lemma removeAll_frame a pat pre mid post :
  a ∉ chars ("{" +:+ mid +:+ "}") →
  "{"%char ∉ chars (String a pat) →
  removeAll (String a pat) (pre +:+ "{" +:+ mid +:+ "}" +:+ post)
  = removeAll (String a pat) pre +:+ "{" +:+ mid +:+ "}" +:+ removeAll (String a pat) post.
Proof.
  intros Ha Hpat. unfold removeAll.
  change (pre +:+ "{" +:+ mid +:+ "}" +:+ post)
    with (pre +:+ String "{" (mid +:+ "}" +:+ post)).
  rewrite (removeAll_go_before _ "{" 0 pre _ Hpat) by lia. f_equal.
  change (String "{" (mid +:+ "}" +:+ post)) with ("{" +:+ mid +:+ "}" +:+ post).
  rewrite <- (append_assoc mid "}" post), <- (append_assoc "{" (mid +:+ "}") post).
  by rewrite removeAll_go_pass, !append_assoc.
Qed.

Lemma indexOf_first c pre t :
  c ∉ chars pre → indexOf c (pre +:+ String c t) = Some (String.length pre).
Proof.
  induction pre as [|b pre IH]; intros Hc.
  - simpl. by rewrite decide_True.
  - simpl in Hc. apply not_elem_of_cons in Hc as [Hne Hc].
    rewrite append_cons. simpl. rewrite decide_False by done. by rewrite IH.
Qed.

Lemma lastIndexOf_absent c s : c ∉ chars s → lastIndexOf c s = None.
Proof.
  induction s as [|b s IH]; intros Hc; [done|].
  simpl in Hc. apply not_elem_of_cons in Hc as [Hne Hc].
  simpl. rewrite IH by done. by rewrite decide_False.
Qed.

Lemma lastIndexOf_last c u post :
  c ∉ chars post → lastIndexOf c (u +:+ String c post) = Some (String.length u).
Proof.
  intros Hc. induction u as [|b u IH].
  - simpl. rewrite lastIndexOf_absent by done. by rewrite decide_True.
  - rewrite append_cons. simpl. by rewrite IH.
Qed.

Lemma substring_front t u : String.substring 0 (String.length t) (t +:+ u) = t.
Proof.
  induction t as [|c t IH]; [by destruct u|]. rewrite append_cons. simpl. by rewrite IH.
Qed.

Lemma substring_middle s t u :
  String.substring (String.length s) (String.length t) (s +:+ t +:+ u) = t.
Proof.
  induction s as [|c s IH]; [exact (substring_front t u)|].
  rewrite append_cons. simpl. exact IH.
Qed.

Lemma trimEnd_closing u : trimEnd (u +:+ "}") = u +:+ "}".
Proof.
  induction u as [|c u IH]; [done|].
  rewrite append_cons. simpl. rewrite IH. by destruct u.
Qed.

Lemma trimEnd_idempotent s : trimEnd (trimEnd s) = trimEnd s.
Proof.
  induction s as [|b s IH]; [done|]. simpl.
  destruct (trimEnd s) as [|c rest] eqn:Hrest.
  - destruct (isJsSpace b) eqn:Hb; [done|]. simpl. by rewrite Hb.
  - cbn [trimEnd]. cbn [trimEnd] in IH. by rewrite IH.
Qed.

Lemma trimStart_fixed s :
  match s with EmptyString => True | String b _ => isJsSpace b = false end →
  trimStart s = s.
Proof. destruct s as [|b s]; [done|]. simpl. by intros ->. Qed.

Lemma trimStart_head s :
  match trimStart s with EmptyString => True | String b _ => isJsSpace b = false end.
Proof.
  induction s as [|b s IH]; [done|]. simpl.
  destruct (isJsSpace b) eqn:Hb; [done|]. simpl. done.
Qed.

(** Trimming the end keeps a first character that is not white space. *)
Lemma trimEnd_head s :
  match s with EmptyString => True | String b _ => isJsSpace b = false end →
  match trimEnd s with EmptyString => True | String b _ => isJsSpace b = false end.
Proof.
  destruct s as [|b s]; [done|]. simpl. intros Hb.
  destruct (trimEnd s); [by rewrite Hb|done].
Qed.

Lemma trim_idempotent s : trim (trim s) = trim s.
Proof.
  unfold trim. rewrite (trimStart_fixed (trimEnd (trimStart s))).
  - apply trimEnd_idempotent.
  - apply trimEnd_head, trimStart_head.
Qed.

(** What [cleanJson] is for: whatever surrounds a JSON object, prose or
    Markdown fences, is stripped. If the text is an object, from its
    opening to its closing brace and without backticks inside, between a
    prefix and a suffix that contain no brace, the result is the object. *)
Theorem cleanJson_extracts_object pre mid post :
  braceFree pre → braceFree post → tickFree mid →
  cleanJson (pre +:+ "{" +:+ mid +:+ "}" +:+ post) = "{" +:+ mid +:+ "}".
Proof.
  intros Hpre Hpost Hmid. unfold cleanJson.
  assert ("`"%char ∉ chars ("{" +:+ mid +:+ "}")) as Hbody.
  { rewrite !chars_append. simpl. rewrite not_elem_of_cons, not_elem_of_app.
    split_and!; [done|done|]. by intros ?%list_elem_of_singleton. }
  assert (∀ p, "{"%char ∉ chars (String "`" p) → ∀ x y, braceFree x → braceFree y →
            ∃ x' y', removeAll (String "`" p) (x +:+ "{" +:+ mid +:+ "}" +:+ y)
                     = x' +:+ "{" +:+ mid +:+ "}" +:+ y'
                     ∧ braceFree x' ∧ braceFree y') as Hstep.
  { intros p Hp x y Hx Hy. eexists _, _. split; [by apply removeAll_frame|].
    split; by apply removeAll_braceFree. }
  destruct (Hstep "``json") with (x := pre) (y := post) as (pre1 & post1 & -> & Hpre1 & Hpost1);
    [by apply (bool_decide_eq_true_1 _)|done..|].
  destruct (Hstep "``") with (x := pre1) (y := post1) as (pre2 & post2 & -> & Hpre2 & Hpost2);
    [by apply (bool_decide_eq_true_1 _)|done..|].
  change (pre2 +:+ "{" +:+ mid +:+ "}" +:+ post2)
    with (pre2 +:+ String "{" (mid +:+ "}" +:+ post2)) at 1.
  rewrite indexOf_first by apply Hpre2.
  replace (pre2 +:+ "{" +:+ mid +:+ "}" +:+ post2)
    with ((pre2 +:+ "{" +:+ mid) +:+ String "}" post2) at 1 by (by rewrite !append_assoc).
  rewrite lastIndexOf_last by apply Hpost2.
  unfold jsSubstring. rewrite !length_append. simpl.
  replace (_ `min` _) with (String.length pre2) by lia.
  replace (_ `max` _ - _) with (String.length ("{" +:+ mid +:+ "}"))
    by (rewrite !length_append; simpl; lia).
  replace (pre2 +:+ "{" +:+ mid +:+ "}" +:+ post2)
    with (pre2 +:+ ("{" +:+ mid +:+ "}") +:+ post2) by (by rewrite !append_assoc).
  rewrite (substring_middle pre2 ("{" +:+ mid +:+ "}") post2).
  unfold trim. change ("{" +:+ mid +:+ "}") with (String "{" (mid +:+ "}")).
  cbn [trimStart]. change (isJsSpace "{") with false. cbn iota.
  change (String "{" (mid +:+ "}")) with (("{" +:+ mid) +:+ "}").
  apply trimEnd_closing.
Qed.

Lemma cleanJson_extracts_object_witness :
  cleanJson "Here is the graph: ```json {nodes:[{id:1}],links:[]} ``` Hope it helps."
  = "{nodes:[{id:1}],links:[]}".
Proof.
  apply (cleanJson_extracts_object "Here is the graph: ```json " "nodes:[{id:1}],links:[]"
           " ``` Hope it helps.").
  - split; by apply (bool_decide_eq_true_1 _).
  - split; by apply (bool_decide_eq_true_1 _).
  - by apply (bool_decide_eq_true_1 _).
Defined.

Lemma length_chars s : length (chars s) = String.length s.
Proof. induction s as [|b s IH]; simpl; [done|]. by f_equal. Qed.

Lemma removeAll_go_sublist pat k s : chars (removeAll_go pat k s) `sublist_of` chars s.
Proof.
  revert k. induction s as [|b s IH]; intros k; [done|].
  destruct k as [|k]; cbn [removeAll_go].
  - destruct (String.prefix pat (String b s)); simpl.
    + by apply sublist_cons.
    + by apply sublist_skip.
  - simpl. by apply sublist_cons.
Qed.

Lemma substring_sublist n m s : chars (String.substring n m s) `sublist_of` chars s.
Proof.
  revert n m. induction s as [|b s IH]; intros [|n] [|m]; simpl; try done.
  - apply sublist_nil_l.
  - by apply sublist_skip.
  - by apply sublist_cons.
  - by apply sublist_cons.
Qed.

Lemma trimStart_sublist s : chars (trimStart s) `sublist_of` chars s.
Proof.
  induction s as [|b s IH]; [done|]. simpl.
  destruct (isJsSpace b); [by apply sublist_cons|done].
Qed.

Lemma trimEnd_sublist s : chars (trimEnd s) `sublist_of` chars s.
Proof.
  induction s as [|b s IH]; [done|]. simpl.
  destruct (trimEnd s) as [|c rest].
  - destruct (isJsSpace b); [apply sublist_nil_l|].
    simpl. apply sublist_skip, sublist_nil_l.
  - simpl. by apply sublist_skip.
Qed.

(** [cleanJson] only deletes: its result is made of characters of the
    text in their order, so it is never longer than the text, and it has
    no white space at either end. *)
Theorem cleanJson_only_deletes (text : string) :
  chars (cleanJson text) `sublist_of` chars text
  ∧ (String.length (cleanJson text) ≤ String.length text)%nat
  ∧ trim (cleanJson text) = cleanJson text.
Proof.
  assert (chars (cleanJson text) `sublist_of` chars text) as Hsub.
  { unfold cleanJson, trim, removeAll, jsSubstring.
    etrans; [apply trimEnd_sublist|]. etrans; [apply trimStart_sublist|].
    etrans; [|apply (removeAll_go_sublist "```json" 0)].
    etrans; [|apply (removeAll_go_sublist "```" 0)].
    destruct (indexOf _ _) as [i|]; [|done].
    destruct (lastIndexOf _ _) as [j|]; [|done].
    apply substring_sublist. }
  split_and!; [done| |].
  - apply sublist_length in Hsub. by rewrite !length_chars in Hsub.
  - unfold cleanJson. apply trim_idempotent.
Qed.

End CleanJson.

Lemma tick_and_highlight_commute_witness :
  simulation (onTick (H := tickCounter) (commit None firstRender unmounted)) = Some 1.
Proof.
  destruct (tick_and_highlight_commute (H := tickCounter) firstRender
              (commit None firstRender unmounted)) as (_ & _ & _ & Hlive).
  destruct (Hlive 0) as [Hsim _]; [reflexivity|]. exact Hsim.
Defined.
